(** * simple-rag-ai-agent: the query and ingestion pipeline

    A shallow embedding of [backend/rag/rag_answer.py] and
    [backend/main.py], together with models of the chunker and of the
    index builder/loader, and the properties of the pipeline proved
    about them.

    Python exceptions are values of [Py.exn]; a computation is a
    function from the state it may touch to an outcome (a value or a
    raised exception) and the state it leaves behind, so that whatever a
    failing call has already mutated stays mutated, as in Python.  The
    calls made to the model provider and to the vector index are kept in
    a ghost trace. *)

From Stdlib Require Import String Ascii List ZArith Lia Bool Arith.
From Equations Require Import Equations.
Import ListNotations.
Local Open Scope string_scope.
Local Open Scope Z_scope.

Set Implicit Arguments.

(** ** Python values, exceptions and list indexing *)

Module Py.

(** The exception classes the pipeline distinguishes: [openai.OpenAIError]
    (with all its subclasses), [IndexError], and any other subclass of
    [Exception].  Each carries the text that [str(e)] returns. *)
Inductive exn : Type :=
| OpenAIError (msg : string)
| IndexError (msg : string)
| Exception (msg : string).

Definition str (e : exn) : string :=
  match e with
  | OpenAIError msg => msg
  | IndexError msg => msg
  | Exception msg => msg
  end.

(** [isinstance(e, OpenAIError)], the test of an [except OpenAIError] clause. *)
Definition is_OpenAIError (e : exn) : bool :=
  match e with
  | OpenAIError _ => true
  | _ => false
  end.

Inductive outcome (A : Type) : Type :=
| Return (a : A)
| Raise (e : exn).
Arguments Return {A} a.
Arguments Raise {A} e.

Definition nl : string := String (ascii_of_nat 10) EmptyString.

(** [l[i]] on a Python list: positions [0 .. len-1], negative positions
    [-len .. -1] counted from the end, [IndexError] anywhere else. *)
Definition getitem {A : Type} (l : list A) (i : Z) : outcome A :=
  let n := Z.of_nat (length l) in
  let pos := if i <? 0 then n + i else i in
  if (0 <=? pos) && (pos <? n) then
    match nth_error l (Z.to_nat pos) with
    | Some x => Return x
    | None => Raise (IndexError "list index out of range")
    end
  else Raise (IndexError "list index out of range").

(** [sep.join(l)] *)
Definition join (sep : string) (l : list string) : string :=
  String.concat sep l.

End Py.
Import Py.

(** ** Computations over a state, with exceptions *)

Definition M (S A : Type) : Type := S -> outcome A * S.

Definition ret {S A : Type} (a : A) : M S A := fun s => (Return a, s).

Definition raise {S A : Type} (e : exn) : M S A := fun s => (Raise e, s).

Definition bind {S A B : Type} (m : M S A) (f : A -> M S B) : M S B :=
  fun s =>
    match m s with
    | (Return a, s') => f a s'
    | (Raise e, s') => (Raise e, s')
    end.

(** [try: m  except C as e: h e], where [C] is the class recognised by [is_C]. *)
Definition try_except {S A : Type} (m : M S A) (is_C : exn -> bool)
    (h : exn -> M S A) : M S A :=
  fun s =>
    match m s with
    | (Return a, s') => (Return a, s')
    | (Raise e, s') => if is_C e then h e s' else (Raise e, s')
    end.

Definition of_outcome {S A : Type} (o : outcome A) : M S A := fun s => (o, s).

Definition modify {S : Type} (f : S -> S) : M S unit := fun s => (Return tt, f s).

Declare Scope py_scope.
Delimit Scope py_scope with py.
Notation "x <- m ;; k" := (bind m (fun x => k))
  (at level 61, m at next level, right associativity) : py_scope.
Notation "m ;; k" := (bind m (fun _ => k))
  (at level 61, right associativity) : py_scope.
Local Open Scope py_scope.

(** ** The world outside the process: the data directory and the services *)

(** The three files of the data directory, named by the module constants
    of [main.py]. *)
Inductive Path : Type := PDF_PATH | INDEX_PATH | META_PATH.

(** A role-tagged chat message. *)
Record Message : Type := { role : string; content : string }.

Section World.

(** [Vec] is a float32 row as numpy holds it, [Index] a faiss index object. *)
Variables Vec Index : Type.

Inductive File : Type :=
| FaissIndex (idx : Index)
| ChunksJson (cs : list string)
| Blob (raw : string).

Record Disk : Type := {
  knowledge_pdf : option File;
  index_faiss : option File;
  chunks_json : option File
}.

Definition read_file (d : Disk) (p : Path) : option File :=
  match p with
  | PDF_PATH => knowledge_pdf d
  | INDEX_PATH => index_faiss d
  | META_PATH => chunks_json d
  end.

Definition write_file (d : Disk) (p : Path) (f : File) : Disk :=
  match p with
  | PDF_PATH =>
      {| knowledge_pdf := Some f;
         index_faiss := index_faiss d;
         chunks_json := chunks_json d |}
  | INDEX_PATH =>
      {| knowledge_pdf := knowledge_pdf d;
         index_faiss := Some f;
         chunks_json := chunks_json d |}
  | META_PATH =>
      {| knowledge_pdf := knowledge_pdf d;
         index_faiss := index_faiss d;
         chunks_json := Some f |}
  end.

(** [os.path.exists(p)] *)
Definition os_path_exists (d : Disk) (p : Path) : bool :=
  match read_file d p with
  | Some _ => true
  | None => false
  end.

(** A call that leaves the process. *)
Inductive Event : Type :=
| EmbeddingsCreate (model : string) (input : list string)
| ChatCompletionsCreate (model : string) (messages : list Message)
| IndexSearch (index : Index) (qvec : Vec) (k : Z).

(** What the code outside [main.py] can read and change: the files, and
    the trace of calls made so far (oldest first). *)
Record Sys : Type := { disk : Disk; calls : list Event }.

(** The external collaborators.  The provider and the index answer a
    call with a value or an exception; the functions of the modules
    [rag.pdf_to_text], [rag.chunking] and [rag.embed_store] are
    computations over [Sys]. *)
Record Env : Type := {
  (** [client.embeddings.create(model=, input=)]: the embeddings
      [resp.data[j].embedding], as float32 rows *)
  embeddings_create : string -> list string -> outcome (list Vec);
  (** [client.chat.completions.create(model=, messages=)]: the texts
      [response.choices[j].message.content] *)
  chat_completions_create : string -> list Message -> outcome (list string);
  (** [faiss.normalize_L2] on a one-row matrix *)
  normalize_L2 : Vec -> Vec;
  (** [index.search(qvec, k)]: the row [ids[0]] *)
  index_search : Index -> Vec -> Z -> outcome (list Z);
  pdf_to_text : Path -> M Sys string;
  chunk_text : string -> M Sys (list string);
  build_and_save_index : list string -> Path -> Path -> M Sys unit;
  load_index : Path -> Path -> M Sys (Index * list string)
}.

(** Perform an external call: record it, then deliver its answer. *)
Definition call {A : Type} (ev : Event) (answer : outcome A) : M Sys A :=
  fun s => (answer, {| disk := disk s; calls := calls s ++ [ev] |}).

End World.

Arguments read_file {Index} d p.
Arguments write_file {Index} d p f.
Arguments os_path_exists {Index} d p.
Arguments call {Vec Index A} ev answer.
Arguments Build_Env {Vec Index}.
Arguments FaissIndex {Index} idx.
Arguments ChunksJson {Index} cs.
Arguments Blob {Index} raw.
Arguments EmbeddingsCreate {Vec Index} model input.
Arguments ChatCompletionsCreate {Vec Index} model messages.
Arguments IndexSearch {Vec Index} index qvec k.

(** ** backend/rag/rag_answer.py *)

Module RagAnswer.
Section WithEnv.

Context {Vec Index : Type} (E : Env Vec Index).

Definition CHAT_MODEL : string := "gpt-4o-mini".
Definition EMBED_MODEL : string := "text-embedding-3-small".

Definition embed_query (query : string) : M (Sys Vec Index) Vec :=
  try_except
    (resp <- call (EmbeddingsCreate EMBED_MODEL [query])
                  (embeddings_create E EMBED_MODEL [query]) ;;
     vec <- of_outcome (getitem resp 0) ;;
     ret (normalize_L2 E vec))
    is_OpenAIError
    (fun e => raise (OpenAIError ("Failed to generate embedding: " ++ str e))).

(** The loop [for i in ids[0]: if i != -1: results.append(chunks[i])]. *)
Fixpoint collect (chunks : list string) (ids : list Z) (results : list string)
    : outcome (list string) :=
  match ids with
  | [] => Return results
  | i :: rest =>
      if negb (i =? -1) then
        match getitem chunks i with
        | Return c => collect chunks rest (results ++ [c])
        | Raise e => Raise e
        end
      else collect chunks rest results
  end.

Definition retrieve (query : string) (index : Index) (chunks : list string)
    (k : Z) : M (Sys Vec Index) (list string) :=
  qvec <- embed_query query ;;
  ids <- call (IndexSearch index qvec k) (index_search E index qvec k) ;;
  of_outcome (collect chunks ids []).

(** The default of the parameter [k]. *)
Definition retrieve_k_default : Z := 4.

Definition SYSTEM_PROMPT : string :=
  "You are an Insurance Agency Customer Care assistant. " ++
  "Use only the provided context to answer. " ++
  "If not found, say you don't have it and offer human support.".

Definition messages_of (context user_question : string) : list Message :=
  [ {| role := "system"; content := SYSTEM_PROMPT |};
    {| role := "user";
       content := "Context:" ++ nl ++ context ++ nl ++ nl ++
                  "Question:" ++ nl ++ user_question |} ].

Definition generate_answer (user_question : string)
    (retrieved_chunks : list string) : M (Sys Vec Index) string :=
  let context := join (nl ++ nl) retrieved_chunks in
  try_except
    (response <- call (ChatCompletionsCreate CHAT_MODEL (messages_of context user_question))
                      (chat_completions_create E CHAT_MODEL (messages_of context user_question)) ;;
     of_outcome (getitem response 0))
    is_OpenAIError
    (fun e => raise (OpenAIError ("Failed to generate answer: " ++ str e))).

End WithEnv.
End RagAnswer.

(** ** backend/main.py *)

Module Main.
Section WithEnv.

Context {Vec Index : Type} (E : Env Vec Index).

(** The module globals [index] and [chunks] ([None] until set), and the
    world outside the process. *)
Record World : Type := {
  index : option Index;
  chunks : option (list string);
  sys : Sys Vec Index
}.

Definition set_index (v : option Index) : M World unit :=
  modify (fun w => {| index := v; chunks := chunks w; sys := sys w |}).

Definition set_chunks (v : option (list string)) : M World unit :=
  modify (fun w => {| index := index w; chunks := v; sys := sys w |}).

(** Run a computation of an imported module: it sees [sys] only. *)
Definition lift {A : Type} (m : M (Sys Vec Index) A) : M World A :=
  fun w =>
    let (r, s') := m (sys w) in
    (r, {| index := index w; chunks := chunks w; sys := s' |}).

(** What an endpoint hands back to the HTTP layer: a JSON body, or the
    [HTTPException] it raised. *)
Inductive response (A : Type) : Type :=
| Json (body : A)
| HTTPException (status_code : Z) (detail : string).
Arguments Json {A} body.
Arguments HTTPException {A} status_code detail.

(** The two [except] clauses that close each endpoint; [what] is the
    prefix of the second one. *)
Definition handle {A : Type} (what : string) (m : M World A)
    : World -> response A * World :=
  fun w =>
    match m w with
    | (Return body, w') => (Json body, w')
    | (Raise e, w') =>
        if is_OpenAIError e then
          (HTTPException 500 ("OpenAI API error: " ++ str e), w')
        else
          (HTTPException 500 (what ++ str e), w')
    end.

Record IngestOut : Type := { status : string; chunks_count : nat }.

Definition ingest_try : M World IngestOut :=
  text <- lift (pdf_to_text E PDF_PATH) ;;
  cs <- lift (chunk_text E text) ;;
  set_chunks (Some cs) ;;
  lift (build_and_save_index E cs INDEX_PATH META_PATH) ;;
  loaded <- lift (load_index E INDEX_PATH META_PATH) ;;
  set_index (Some (fst loaded)) ;;
  set_chunks (Some (snd loaded)) ;;
  ret {| status := "ok"; chunks_count := length (snd loaded) |}.

Definition ingest : World -> response IngestOut * World :=
  handle "Error during ingestion: " ingest_try.

Record ChatIn : Type := { message : string }.
Record ChatOut : Type := { answer : string }.

Definition NOT_INGESTED : string :=
  "Knowledge base not ingested yet. Call /ingest first.".

(** [retrieve], [generate_answer] and the final [return] of [chat]. *)
Definition chat_answer (payload : ChatIn) (index : Index) (chunks : list string)
    : M World ChatOut :=
  hits <- lift (RagAnswer.retrieve E (message payload) index chunks
                  RagAnswer.retrieve_k_default) ;;
  answer <- lift (RagAnswer.generate_answer E (message payload) hits) ;;
  ret {| answer := answer |}.

Definition chat_try (payload : ChatIn) : M World ChatOut :=
  fun w =>
    match index w, chunks w with
    | Some i, Some c => chat_answer payload i c w
    | _, _ =>
        if os_path_exists (disk (sys w)) INDEX_PATH
           && os_path_exists (disk (sys w)) META_PATH
        then
          (loaded <- lift (load_index E INDEX_PATH META_PATH) ;;
           set_index (Some (fst loaded)) ;;
           set_chunks (Some (snd loaded)) ;;
           chat_answer payload (fst loaded) (snd loaded)) w
        else (Return {| answer := NOT_INGESTED |}, w)
    end.

Definition chat (payload : ChatIn) : World -> response ChatOut * World :=
  handle "Error processing request: " (chat_try payload).

End WithEnv.

Arguments World : clear implicits.
Arguments Json {A} body.
Arguments HTTPException {A} status_code detail.

End Main.

(** ** backend/main.py: module-level configuration and the probes *)

Module MainSetup.

(** [os.getenv(key, default)] over the process environment. *)
Definition os_getenv (environ : string -> option string) (key default : string)
    : string :=
  match environ key with
  | Some value => value
  | None => default
  end.

(** [s.split(sep)] for a separator of one character: the pieces between
    the occurrences of [sep], empty pieces included; the empty string
    has the one piece [""]. *)
Fixpoint str_split (sep : ascii) (s : string) : list string :=
  match s with
  | EmptyString => [EmptyString]
  | String c rest =>
      if Ascii.eqb c sep then EmptyString :: str_split sep rest
      else match str_split sep rest with
           | piece :: pieces => String c piece :: pieces
           | [] => [String c EmptyString]
           end
  end.

Definition comma : ascii := ascii_of_nat 44.

Definition ALLOWED_ORIGINS (environ : string -> option string) : list string :=
  str_split comma
    (os_getenv environ "ALLOWED_ORIGINS"
       "http://localhost:5173,http://127.0.0.1:5173").

Definition sep : ascii := ascii_of_nat 47.

(** [b.startswith("/")] *)
Definition starts_with_sep (b : string) : bool :=
  match b with
  | String c _ => Ascii.eqb c sep
  | EmptyString => false
  end.

(** [path.endswith("/")] *)
Fixpoint ends_with_sep (path : string) : bool :=
  match path with
  | EmptyString => false
  | String c EmptyString => Ascii.eqb c sep
  | String _ rest => ends_with_sep rest
  end.

(** [os.path.join(a, b)] of [posixpath]: an absolute [b] replaces [a];
    otherwise [b] is appended, after a "/" unless [a] is empty or ends
    with one. *)
Definition os_path_join (a b : string) : string :=
  if starts_with_sep b then b
  else match a with
       | EmptyString => b
       | _ => if ends_with_sep a then a ++ b
              else a ++ String sep EmptyString ++ b
       end.

(** [here] is [os.path.dirname(__file__)]. *)
Definition DATA_DIR (here : string) : string := os_path_join here "data".

Definition file_name (p : Path) : string :=
  match p with
  | PDF_PATH => "knowledge.pdf"
  | INDEX_PATH => "index.faiss"
  | META_PATH => "chunks.json"
  end.

(** The values of the constants [PDF_PATH], [INDEX_PATH], [META_PATH]. *)
Definition path_string (here : string) (p : Path) : string :=
  os_path_join (DATA_DIR here) (file_name p).

Record Health : Type := { health_status : string }.
Record Root : Type := { root_message : string; version : string }.

Definition health : Health := {| health_status := "healthy" |}.

Definition root : Root :=
  {| root_message := "RAG AI Agent API"; version := "1.0.0" |}.

End MainSetup.

(** ** rag/chunking.py *)

Module Chunking.
Local Open Scope nat_scope.

(** Modelled from the spec: [rag/chunking.py] is not among the sources.
    Section 4.2 gives the chunker a maximum chunk size and an overlap
    (overlap < size), has every chunk span at most [size] characters,
    the first one begin at the start of the text, chunk n+1 begin at
    end(chunk n) - overlap, and the trailing text shorter than [size]
    form the last chunk as it is; an empty text has no chunk.
    [spans_from len size overlap start] lists the spans [(begin, end)]
    of the chunks from position [start] on, in a text of [len]
    characters.  Where the precondition overlap < size fails the next
    chunk would not begin further right, and the list stops there. *)
Equations? spans_from (len size overlap start : nat) : list (nat * nat)
  by wf (len - start) lt :=
  spans_from len size overlap start with le_lt_dec len start := {
    | left _ := [];
    | right _ with le_lt_dec len (start + size) := {
        | left _ := [(start, len)];
        | right _ with le_lt_dec (start + size - overlap) start := {
            | left _ := [(start, start + size)];
            | right _ := (start, start + size)
                           :: spans_from len size overlap (start + size - overlap) } } }.
Proof. lia. Qed.

(** [text[begin:end]] *)
Definition slice {A : Type} (text : list A) (span : nat * nat) : list A :=
  firstn (snd span - fst span) (skipn (fst span) text).

(** The chunker on a text given as its sequence of characters. *)
Definition chunk_list {A : Type} (text : list A) (size overlap : nat)
    : list (list A) :=
  map (slice text) (spans_from (length text) size overlap 0).

Definition chunk_text (text : string) (size overlap : nat) : list string :=
  map string_of_list_ascii
      (chunk_list (list_ascii_of_string text) size overlap).

(** Concatenation of the chunks with the repeated [overlap] characters
    at the head of every chunk but the first removed. *)
Definition unoverlap {A : Type} (overlap : nat) (cs : list (list A)) : list A :=
  match cs with
  | [] => []
  | c :: rest => c ++ concat (map (skipn overlap) rest)
  end.

End Chunking.

(** ** rag/embed_store.py *)

Module EmbedStore.
Section WithEnv.

(** The index is the ordered collection of the vectors added to it;
    position [i] belongs to chunk [i]. *)
Context {Vec : Type} (E : Env Vec (list Vec)).

(** Modelled from the spec: [rag/embed_store.py] is not among the
    sources.  Section 4.3: [embed] sends the texts to the embedding
    model, returns the vectors in the order of the texts, each
    L2-normalized, and wraps a provider error into an error with a
    descriptive message; nothing is returned on failure. *)
Definition embed (texts : list string) : M (Sys Vec (list Vec)) (list Vec) :=
  try_except
    (vs <- call (EmbeddingsCreate RagAnswer.EMBED_MODEL texts)
                (embeddings_create E RagAnswer.EMBED_MODEL texts) ;;
     ret (map (normalize_L2 E) vs))
    is_OpenAIError
    (fun e => raise (OpenAIError ("Failed to generate embeddings: " ++ str e))).

(** Modelled from the spec: section 4.4, [build(chunks) -> Index] embeds
    all chunk texts in their order and builds the search structure over
    the vectors. *)
Definition build (chunks : list string) : M (Sys Vec (list Vec)) (list Vec) :=
  embed chunks.

(** Modelled from the spec: section 4.4, [save] persists the search
    structure to one file and the chunk texts, in order, to a second. *)
Definition save (index : list Vec) (chunks : list string)
    (index_path meta_path : Path) : M (Sys Vec (list Vec)) unit :=
  modify (fun s =>
    {| disk := write_file (write_file (disk s) index_path (FaissIndex index))
                          meta_path (ChunksJson chunks);
       calls := calls s |}).

(** Modelled from the spec: section 4.4, [load] rebuilds both from disk
    and fails when either file is missing or unreadable, or when the two
    differ in length. *)
Definition load (index_path meta_path : Path)
    : M (Sys Vec (list Vec)) (list Vec * list string) :=
  fun s =>
    match read_file (disk s) index_path, read_file (disk s) meta_path with
    | None, _ => (Raise (Exception "index file not found"), s)
    | _, None => (Raise (Exception "chunk file not found"), s)
    | Some (FaissIndex index), Some (ChunksJson chunks) =>
        if Nat.eqb (length index) (length chunks) then (Return (index, chunks), s)
        else (Raise (Exception "index and chunk store differ in length"), s)
    | Some _, Some _ => (Raise (Exception "unreadable knowledge base file"), s)
    end.

(** Modelled from the spec: the two entry points [main.py] imports,
    [build] followed by [save], and [load]. *)
Definition build_and_save_index (chunks : list string)
    (index_path meta_path : Path) : M (Sys Vec (list Vec)) unit :=
  index <- build chunks ;;
  save index chunks index_path meta_path.

Definition load_index (index_path meta_path : Path)
    : M (Sys Vec (list Vec)) (list Vec * list string) :=
  load index_path meta_path.

(** The environment [E] with the chunker and the index builder/loader
    replaced by the models above; the text extractor, the provider and
    the index search stay those of [E]. *)
Definition with_modules (size overlap : nat) : Env Vec (list Vec) :=
  Build_Env
    (embeddings_create E)
    (chat_completions_create E)
    (normalize_L2 E)
    (index_search E)
    (pdf_to_text E)
    (fun text => ret (Chunking.chunk_text text size overlap))
    build_and_save_index
    load_index.

End WithEnv.
End EmbedStore.

(** ** A concrete environment

    Vectors are symbolic: [Raw t] stands for the embedding the provider
    computes for the text [t], [Unit v] for [v] after normalization.  The
    provider answers every call when the API key is valid and refuses
    every call otherwise; the index answers a search with the first [k]
    positions it holds, padded with [-1]. *)

Module Demo.

Inductive vec : Type :=
| Raw (text : string)
| Unit (v : vec).

Definition provider_error : exn :=
  OpenAIError "Incorrect API key provided".

Definition embeddings (key_ok : bool) (model : string) (input : list string)
    : outcome (list vec) :=
  if key_ok then Return (map Raw input) else Raise provider_error.

Definition completions (key_ok : bool) (model : string)
    (messages : list Message) : outcome (list string) :=
  if key_ok then Return ["I don't have that; let me get you human support."]
  else Raise provider_error.

Definition search (index : list vec) (qvec : vec) (k : Z) : outcome (list Z) :=
  Return (firstn (Z.to_nat k)
            (map Z.of_nat (seq 0 (length index)) ++ repeat (-1) (Z.to_nat k))).

Definition extract (p : Path) : M (Sys vec (list vec)) string :=
  fun s =>
    match read_file (disk s) p with
    | Some (Blob raw) => (Return raw, s)
    | _ => (Raise (Exception "cannot read the document"), s)
    end.

Definition env (key_ok : bool) : Env vec (list vec) :=
  EmbedStore.with_modules
    {| embeddings_create := embeddings key_ok;
       chat_completions_create := completions key_ok;
       normalize_L2 := Unit;
       index_search := search;
       pdf_to_text := extract;
       chunk_text := fun _ => raise (Exception "unused");
       build_and_save_index := fun _ _ _ => raise (Exception "unused");
       load_index := fun _ _ => raise (Exception "unused") |}
    800 100.

Definition no_files : Disk (list vec) :=
  {| knowledge_pdf := None; index_faiss := None; chunks_json := None |}.

Definition empty_sys : Sys vec (list vec) :=
  {| disk := no_files; calls := [] |}.

(** A knowledge base of one chunk, persisted and loaded, next to a new
    document waiting to be ingested. *)
Definition ready_disk : Disk (list vec) :=
  {| knowledge_pdf := Some (Blob "new policy text");
     index_faiss := Some (FaissIndex [Unit (Raw "old policy text")]);
     chunks_json := Some (ChunksJson ["old policy text"]) |}.

Definition ready_world : Main.World vec (list vec) :=
  {| Main.index := Some [Unit (Raw "old policy text")];
     Main.chunks := Some ["old policy text"];
     Main.sys := {| disk := ready_disk; calls := [] |} |}.

(** The same knowledge base after a restart of the process: on disk only. *)
Definition restarted_world : Main.World vec (list vec) :=
  {| Main.index := None;
     Main.chunks := None;
     Main.sys := {| disk := ready_disk; calls := [] |} |}.

Definition absent_world : Main.World vec (list vec) :=
  {| Main.index := None; Main.chunks := None; Main.sys := empty_sys |}.

End Demo.

(** * The vocabulary of the properties *)

Section Vocabulary.

Context {Vec Index : Type} (E : Env Vec Index).

(** The state after one more external call. *)
Definition logged (s : Sys Vec Index) (ev : Event Vec Index) : Sys Vec Index :=
  {| disk := disk s; calls := calls s ++ [ev] |}.

(** What [embed_query] raises when the provider raised [e]. *)
Definition embedding_failure (e : exn) : exn :=
  if is_OpenAIError e then OpenAIError ("Failed to generate embedding: " ++ str e)
  else e.

(** What [generate_answer] raises when the provider raised [e]. *)
Definition answer_failure (e : exn) : exn :=
  if is_OpenAIError e then OpenAIError ("Failed to generate answer: " ++ str e)
  else e.

(** The positions of a search result that are not the sentinel. *)
Definition matches (ids : list Z) : list Z :=
  filter (fun i => negb (i =? -1)) ids.

(** The chunks one after the other, a blank line between two of them. *)
Fixpoint blank_line_separated (cs : list string) : string :=
  match cs with
  | [] => ""
  | [c] => c
  | c :: rest => c ++ nl ++ nl ++ blank_line_separated rest
  end.

(** The world [w] after the code outside [main.py] has left [s] behind. *)
Definition with_sys (w : Main.World Vec Index) (s : Sys Vec Index)
    : Main.World Vec Index :=
  {| Main.index := Main.index w; Main.chunks := Main.chunks w; Main.sys := s |}.

(** The answer [r] that [chat] returned in [w'] is the first text of the
    completion model's reply to the last call made. *)
Definition answered_by_model (payload : Main.ChatIn) (r : Main.ChatOut)
    (w' : Main.World Vec Index) : Prop :=
  exists hits texts before,
    calls (Main.sys w') =
      (before ++ [ChatCompletionsCreate RagAnswer.CHAT_MODEL
                    (RagAnswer.messages_of (join (nl ++ nl) hits)
                       (Main.message payload))])%list /\
    chat_completions_create E RagAnswer.CHAT_MODEL
      (RagAnswer.messages_of (join (nl ++ nl) hits) (Main.message payload))
      = Return texts /\
    getitem texts 0 = Return (Main.answer r).

Inductive Request : Type :=
| Ingest
| Chat (payload : Main.ChatIn).

Inductive Stage : Type :=
| Extraction | Chunking | Indexing | Loading
| QueryEmbedding | Search | Completion.

(** The exception that leaves the stage when its collaborator raised [e]:
    [embed_query] and [generate_answer] raise a provider error anew under
    a message of their own. *)
Definition raised_from (st : Stage) (e : exn) : exn :=
  match st with
  | QueryEmbedding => embedding_failure e
  | Completion => answer_failure e
  | _ => e
  end.

Definition boundary_detail (req : Request) (e : exn) : string :=
  if is_OpenAIError e then "OpenAI API error: " ++ str e
  else match req with
       | Ingest => "Error during ingestion: " ++ str e
       | Chat _ => "Error processing request: " ++ str e
       end.

(** The failure an endpoint reports to its caller, if it reports one. *)
Definition failure {A : Type} (r : Main.response A) : option (Z * string) :=
  match r with
  | Main.Json _ => None
  | Main.HTTPException status_code detail => Some (status_code, detail)
  end.

Definition serve (req : Request) (w : Main.World Vec Index)
    : option (Z * string) * Main.World Vec Index :=
  match req with
  | Ingest => let (r, w') := Main.ingest E w in (failure r, w')
  | Chat payload => let (r, w') := Main.chat E payload w in (failure r, w')
  end.

(** The knowledge base [chat] answers from, and the state in which it
    starts to answer: the globals when both are set, otherwise what
    [load_index] returns when both files exist. *)
Inductive kb_for_chat (w : Main.World Vec Index)
    : Index -> list string -> Sys Vec Index -> Prop :=
| kb_in_memory i c :
    Main.index w = Some i -> Main.chunks w = Some c ->
    kb_for_chat w i c (Main.sys w)
| kb_from_disk i c s0 :
    Main.index w = None \/ Main.chunks w = None ->
    os_path_exists (disk (Main.sys w)) INDEX_PATH = true ->
    os_path_exists (disk (Main.sys w)) META_PATH = true ->
    load_index E INDEX_PATH META_PATH (Main.sys w) = (Return (i, c), s0) ->
    kb_for_chat w i c s0.

(** [collaborator_raises req w st e s']: while the request [req] is
    served from the world [w], every stage before [st] succeeds and the
    collaborator of stage [st] raises [e], leaving [s'] behind. *)
Inductive collaborator_raises (w : Main.World Vec Index)
    : Request -> Stage -> exn -> Sys Vec Index -> Prop :=
| raises_extraction e s' :
    pdf_to_text E PDF_PATH (Main.sys w) = (Raise e, s') ->
    collaborator_raises w Ingest Extraction e s'
| raises_chunking text s1 e s' :
    pdf_to_text E PDF_PATH (Main.sys w) = (Return text, s1) ->
    chunk_text E text s1 = (Raise e, s') ->
    collaborator_raises w Ingest Chunking e s'
| raises_indexing text s1 cs s2 e s' :
    pdf_to_text E PDF_PATH (Main.sys w) = (Return text, s1) ->
    chunk_text E text s1 = (Return cs, s2) ->
    build_and_save_index E cs INDEX_PATH META_PATH s2 = (Raise e, s') ->
    collaborator_raises w Ingest Indexing e s'
| raises_loading_ingest text s1 cs s2 s3 e s' :
    pdf_to_text E PDF_PATH (Main.sys w) = (Return text, s1) ->
    chunk_text E text s1 = (Return cs, s2) ->
    build_and_save_index E cs INDEX_PATH META_PATH s2 = (Return tt, s3) ->
    load_index E INDEX_PATH META_PATH s3 = (Raise e, s') ->
    collaborator_raises w Ingest Loading e s'
| raises_loading_chat payload e s' :
    Main.index w = None \/ Main.chunks w = None ->
    os_path_exists (disk (Main.sys w)) INDEX_PATH = true ->
    os_path_exists (disk (Main.sys w)) META_PATH = true ->
    load_index E INDEX_PATH META_PATH (Main.sys w) = (Raise e, s') ->
    collaborator_raises w (Chat payload) Loading e s'
| raises_query_embedding payload i c s0 e :
    kb_for_chat w i c s0 ->
    embeddings_create E RagAnswer.EMBED_MODEL [Main.message payload] = Raise e ->
    collaborator_raises w (Chat payload) QueryEmbedding e
      (logged s0 (EmbeddingsCreate RagAnswer.EMBED_MODEL [Main.message payload]))
| raises_search payload i c s0 v more e :
    kb_for_chat w i c s0 ->
    embeddings_create E RagAnswer.EMBED_MODEL [Main.message payload]
      = Return (v :: more) ->
    index_search E i (normalize_L2 E v) 4 = Raise e ->
    collaborator_raises w (Chat payload) Search e
      (logged (logged s0 (EmbeddingsCreate RagAnswer.EMBED_MODEL [Main.message payload]))
              (IndexSearch i (normalize_L2 E v) 4))
| raises_completion payload i c s0 hits s1 e :
    kb_for_chat w i c s0 ->
    RagAnswer.retrieve E (Main.message payload) i c 4 s0 = (Return hits, s1) ->
    chat_completions_create E RagAnswer.CHAT_MODEL
      (RagAnswer.messages_of (join (nl ++ nl) hits) (Main.message payload))
      = Raise e ->
    collaborator_raises w (Chat payload) Completion e
      (logged s1 (ChatCompletionsCreate RagAnswer.CHAT_MODEL
                    (RagAnswer.messages_of (join (nl ++ nl) hits)
                       (Main.message payload)))).

End Vocabulary.

Section ChunkVocabulary.

Local Open Scope nat_scope.

(** [chained len size overlap start spans]: the spans tile the positions
    [start .. len) of the text from left to right; every span but the
    last is [size] long and the next one begins [overlap] before its
    end; the last one ends with the text. *)
Inductive chained (len size overlap : nat) : nat -> list (nat * nat) -> Prop :=
| chained_last start :
    start < len -> len <= start + size ->
    chained len size overlap start [(start, len)]
| chained_next start rest :
    start + size < len ->
    chained len size overlap (start + size - overlap) rest ->
    chained len size overlap start ((start, start + size) :: rest).

End ChunkVocabulary.

Section StoreVocabulary.

Context {Vec : Type} (E : Env Vec (list Vec)).

(** The contract of the embedding provider (section 6): one vector per
    text. *)
Definition one_vector_per_text : Prop :=
  forall model texts vs,
    embeddings_create E model texts = Return vs ->
    length vs = length texts.

(** The knowledge base in memory, when there is one, has as many vectors
    as chunk texts. *)
Definition consistent (w : Main.World Vec (list Vec)) : Prop :=
  match Main.index w, Main.chunks w with
  | Some index, Some chunks => length index = length chunks
  | _, _ => True
  end.

End StoreVocabulary.

Section BoundsVocabulary.

(** The position of a list of [len] elements that Python reads for the
    subscript [i]: a negative subscript counts from the end. *)
Definition wrapped (len i : Z) : Z := if i <? 0 then len + i else i.

(** The subscripts that a list of [len] elements accepts. *)
Definition in_bounds (len i : Z) : Prop := - len <= i < len.

(** How often the character [c] occurs in [s]. *)
Fixpoint count_char (c : ascii) (s : string) : nat :=
  match s with
  | EmptyString => 0%nat
  | String c' rest =>
      if Ascii.eqb c' c then S (count_char c rest) else count_char c rest
  end.

End BoundsVocabulary.

(** ** The concrete environment with a failing collaborator

    [Faulty.env st] is the concrete environment with a valid API key,
    except that the text extractor (for [Extraction]) or the index
    loader (for [Loading]) raises the same exception. *)

Module Faulty.

Definition failure : exn := Exception "storage unavailable".

Definition env (st : Stage) : Env Demo.vec (list Demo.vec) :=
  Build_Env
    (embeddings_create (Demo.env true))
    (chat_completions_create (Demo.env true))
    (normalize_L2 (Demo.env true))
    (index_search (Demo.env true))
    (match st with
     | Extraction => fun _ => raise failure
     | _ => pdf_to_text (Demo.env true)
     end)
    (chunk_text (Demo.env true))
    (build_and_save_index (Demo.env true))
    (match st with
     | Loading => fun _ _ => raise failure
     | _ => load_index (Demo.env true)
     end).

(** The state outside the process once the new document is indexed and
    saved. *)
Definition saved_sys : Sys Demo.vec (list Demo.vec) :=
  {| disk :=
       {| knowledge_pdf := Some (Blob "new policy text");
          index_faiss := Some (FaissIndex [Demo.Unit (Demo.Raw "new policy text")]);
          chunks_json := Some (ChunksJson ["new policy text"]) |};
     calls := [EmbeddingsCreate "text-embedding-3-small" ["new policy text"]] |}.

End Faulty.

(** * Properties *)

(** ** How the functions of [rag_answer.py] run *)

Section RagAnswerRuns.

Context {Vec Index : Type} (E : Env Vec Index).

Lemma getitem_not_OpenAIError {A : Type} (l : list A) (i : Z) (e : exn) :
  getitem l i = Raise e -> is_OpenAIError e = false.
Proof.
  unfold getitem.
  destruct ((0 <=? _) && _); [destruct (nth_error _ _) |];
    intros H; inversion H; reflexivity.
Qed.

Lemma embed_query_run (query : string) (s : Sys Vec Index) :
  RagAnswer.embed_query E query s =
    let s1 := logged s (EmbeddingsCreate RagAnswer.EMBED_MODEL [query]) in
    match embeddings_create E RagAnswer.EMBED_MODEL [query] with
    | Return resp =>
        match getitem resp 0 with
        | Return v => (Return (normalize_L2 E v), s1)
        | Raise e => (Raise e, s1)
        end
    | Raise e => (Raise (embedding_failure e), s1)
    end.
Proof.
  unfold RagAnswer.embed_query, try_except, bind, call, of_outcome, ret,
    raise, embedding_failure, logged.
  destruct (embeddings_create E _ _) as [resp | e]; cbn.
  - destruct (getitem resp 0) as [v | e] eqn:Hget; cbn; [reflexivity |].
    now rewrite (@getitem_not_OpenAIError _ _ _ _ Hget).
  - destruct (is_OpenAIError e); reflexivity.
Qed.

Lemma retrieve_run (query : string) (index : Index) (chunks : list string)
    (k : Z) (s : Sys Vec Index) :
  RagAnswer.retrieve E query index chunks k s =
    match RagAnswer.embed_query E query s with
    | (Return qvec, s1) =>
        let s2 := logged s1 (IndexSearch index qvec k) in
        match index_search E index qvec k with
        | Return ids => (RagAnswer.collect chunks ids [], s2)
        | Raise e => (Raise e, s2)
        end
    | (Raise e, s1) => (Raise e, s1)
    end.
Proof.
  unfold RagAnswer.retrieve, bind.
  destruct (RagAnswer.embed_query E query s) as [[qvec | e] s1]; [| reflexivity].
  unfold call, of_outcome, logged.
  destruct (index_search E index qvec k); reflexivity.
Qed.

Lemma generate_answer_run (user_question : string)
    (retrieved_chunks : list string) (s : Sys Vec Index) :
  RagAnswer.generate_answer E user_question retrieved_chunks s =
    let messages :=
      RagAnswer.messages_of (join (nl ++ nl) retrieved_chunks) user_question in
    let s1 := logged s (ChatCompletionsCreate RagAnswer.CHAT_MODEL messages) in
    match chat_completions_create E RagAnswer.CHAT_MODEL messages with
    | Return response =>
        match getitem response 0 with
        | Return text => (Return text, s1)
        | Raise e => (Raise e, s1)
        end
    | Raise e => (Raise (answer_failure e), s1)
    end.
Proof.
  unfold RagAnswer.generate_answer, try_except, bind, call, of_outcome,
    raise, answer_failure, logged.
  destruct (chat_completions_create E _ _) as [response | e]; cbn.
  - destruct (getitem response 0) as [text | e] eqn:Hget; cbn; [reflexivity |].
    now rewrite (@getitem_not_OpenAIError _ _ _ _ Hget).
  - destruct (is_OpenAIError e); reflexivity.
Qed.

(** The loop of [retrieve] appends to [results] the chunks at the
    positions other than [-1], in the order of [ids]. *)
Lemma collect_Return (chunks : list string) (ids : list Z) :
  forall results hits : list string,
  RagAnswer.collect chunks ids results = Return hits ->
  exists found,
    hits = (results ++ found)%list /\
    Forall2 (fun i c => getitem chunks i = Return c)
            (filter (fun i => negb (i =? -1)) ids) found.
Proof.
  induction ids as [| i rest IH]; intros results hits Hrun; cbn in Hrun.
  - exists []. inversion Hrun. now rewrite app_nil_r.
  - cbn [filter]. destruct (negb (i =? -1)).
    + destruct (getitem chunks i) as [c |] eqn:Hget; [| discriminate].
      destruct (IH _ _ Hrun) as (found & -> & Hall).
      exists (c :: found). split; [now rewrite <- app_assoc |].
      now constructor.
    + exact (IH _ _ Hrun).
Qed.

End RagAnswerRuns.

(** ** Retrieval *)

Section RetrievalProperties.

Context {Vec Index : Type} (E : Env Vec Index).

Lemma getitem_in_range {A : Type} (l : list A) (i : Z) :
  0 <= i < Z.of_nat (length l) ->
  exists x, nth_error l (Z.to_nat i) = Some x /\ getitem l i = Return x.
Proof.
  intros Hi. unfold getitem.
  destruct (Z.ltb_spec i 0); [lia |].
  destruct (Z.leb_spec 0 i); [| lia].
  destruct (Z.ltb_spec i (Z.of_nat (length l))); [| lia]. cbn.
  destruct (nth_error l (Z.to_nat i)) as [x |] eqn:Hnth.
  - now exists x.
  - apply nth_error_None in Hnth. lia.
Qed.

Lemma collect_in_range (chunks : list string) (ids : list Z) :
  Forall (fun i => i = -1 \/ 0 <= i < Z.of_nat (length chunks)) ids ->
  forall results, exists found,
    RagAnswer.collect chunks ids results = Return (results ++ found)%list /\
    Forall2 (fun i c => nth_error chunks (Z.to_nat i) = Some c) (matches ids) found.
Proof.
  induction 1 as [| i rest Hi _ IH]; intros results; cbn.
  - exists []. now rewrite app_nil_r.
  - destruct (Z.eqb_spec i (-1)) as [-> | Hne]; cbn.
    + apply IH.
    + destruct Hi as [-> | Hi]; [contradiction |].
      destruct (@getitem_in_range _ chunks i Hi) as (c & Hnth & ->).
      destruct (IH (results ++ [c])%list) as (found & -> & Hall).
      exists (c :: found). split; [now rewrite <- app_assoc |].
      now constructor.
Qed.

(** C2, as amended.  [retrieve] skips the sentinel [-1] and maps every
    other position the search returns to the chunk text at that position
    of the chunk store, in the order of the search result.  When the
    query is embedded, the search answers, and every position it returns
    is either [-1] or within the chunk store, [retrieve] returns: no
    lookup leaves the bounds of the chunk store. *)
Theorem retrieve_maps_positions_to_chunks (query : string) (index : Index)
    (chunks : list string) (k : Z) (s : Sys Vec Index)
    (v : Vec) (more : list Vec) (ids : list Z) :
  embeddings_create E RagAnswer.EMBED_MODEL [query] = Return (v :: more) ->
  index_search E index (normalize_L2 E v) k = Return ids ->
  Forall (fun i => i = -1 \/ 0 <= i < Z.of_nat (length chunks)) ids ->
  exists hits,
    fst (RagAnswer.retrieve E query index chunks k s) = Return hits /\
    Forall2 (fun i c => i <> -1 /\ nth_error chunks (Z.to_nat i) = Some c)
            (matches ids) hits.
Proof.
  intros Hembed Hsearch Hrange.
  rewrite retrieve_run, embed_query_run, Hembed. cbn. rewrite Hsearch.
  destruct (@collect_in_range chunks ids Hrange []) as (found & Hrun & Hall).
  exists found. split; [exact Hrun |].
  clear Hrun Hrange Hsearch. unfold matches in *.
  induction ids as [| i rest IH] in found, Hall |- *; cbn in *.
  - inversion Hall. constructor.
  - destruct (Z.eqb_spec i (-1)); cbn in *; [now apply IH |].
    inversion Hall; subst. constructor; [now split | now apply IH].
Qed.

(** C3.  With a search that answers a request for [k] neighbours with
    [k] positions, a result of [retrieve] has at most [k] chunk texts;
    they are the chunks at the positions the search returned, the
    sentinel [-1] left out, in the order the search delivered them.
    The default of [k] is 4. *)
Theorem retrieve_at_most_k (query : string) (index : Index)
    (chunks : list string) (k : Z) (s s' : Sys Vec Index) (hits : list string) :
  (forall qvec ids, index_search E index qvec k = Return ids ->
                    length ids = Z.to_nat k) ->
  RagAnswer.retrieve E query index chunks k s = (Return hits, s') ->
  RagAnswer.retrieve_k_default = 4 /\
  (length hits <= Z.to_nat k)%nat /\
  exists qvec ids,
    index_search E index qvec k = Return ids /\
    Forall2 (fun i c => i <> -1 /\ getitem chunks i = Return c) (matches ids) hits.
Proof.
  intros Hshape Hrun. split; [reflexivity |].
  rewrite retrieve_run in Hrun.
  destruct (RagAnswer.embed_query E query s) as [[qvec | e] s1]; [| discriminate].
  cbn in Hrun.
  destruct (index_search E index qvec k) as [ids | e] eqn:Hsearch; [| discriminate].
  injection Hrun as Hrun _.
  destruct (@collect_Return _ _ _ _ Hrun) as (found & -> & Hall). cbn.
  assert (Hlen : (length found <= length ids)%nat).
  { rewrite <- (Forall2_length Hall). apply filter_length_le. }
  split; [rewrite <- (Hshape _ _ Hsearch); exact Hlen |].
  exists qvec, ids. split; [exact Hsearch |].
  clear - Hall. unfold matches in *.
  induction ids as [| i rest IH] in found, Hall |- *; cbn in *.
  - inversion Hall. constructor.
  - destruct (Z.eqb_spec i (-1)); cbn in *; [now apply IH |].
    inversion Hall; subst. constructor; [now split | now apply IH].
Qed.

(** C9.  The vector [retrieve] hands to the search of the index is the
    embedding the provider returned for the query, passed through
    [faiss.normalize_L2]: after the embedding call, the one search call
    of [retrieve] carries the normalized vector. *)
Theorem retrieve_searches_with_normalized_query (query : string)
    (index : Index) (chunks : list string) (k : Z) (s : Sys Vec Index)
    (v : Vec) (more : list Vec) :
  embeddings_create E RagAnswer.EMBED_MODEL [query] = Return (v :: more) ->
  fst (RagAnswer.embed_query E query s) = Return (normalize_L2 E v) /\
  calls (snd (RagAnswer.retrieve E query index chunks k s)) =
    (calls s ++ [EmbeddingsCreate "text-embedding-3-small" [query];
                 IndexSearch index (normalize_L2 E v) k])%list.
Proof.
  intros Hembed.
  rewrite retrieve_run, embed_query_run, Hembed. cbn.
  split; [reflexivity |].
  destruct (index_search E index (normalize_L2 E v) k); cbn;
    now rewrite <- app_assoc.
Qed.

Lemma join_blank_lines (cs : list string) :
  join (nl ++ nl) cs = blank_line_separated cs.
Proof.
  unfold join.
  induction cs as [| c [| c' rest] IH]; try reflexivity.
  change (c ++ (nl ++ nl) ++ String.concat (nl ++ nl) (c' :: rest)
          = c ++ nl ++ nl ++ blank_line_separated (c' :: rest)).
  now rewrite IH.
Qed.

(** C6.  Whatever the question and the retrieved chunks, [generate_answer]
    makes one call to the completion model, for the model "gpt-4o-mini",
    with two messages: the system instruction, a constant text telling
    the model to answer from the provided context only and, when the
    answer is not found, to say so and offer human support; and one user
    message holding the chunks in retrieval order, separated by blank
    lines, under "Context:", followed by the question under "Question:". *)
Theorem generate_answer_sends_fixed_prompt (user_question : string)
    (retrieved_chunks : list string) (s : Sys Vec Index) :
  calls (snd (RagAnswer.generate_answer E user_question retrieved_chunks s)) =
    (calls s ++
     [ChatCompletionsCreate "gpt-4o-mini"
        [ {| role := "system";
             content := "You are an Insurance Agency Customer Care assistant. Use only the provided context to answer. If not found, say you don't have it and offer human support." |};
          {| role := "user";
             content := "Context:" ++ nl ++ blank_line_separated retrieved_chunks
                        ++ nl ++ nl ++ "Question:" ++ nl ++ user_question |} ]])%list.
Proof.
  rewrite generate_answer_run. cbn zeta.
  rewrite join_blank_lines.
  destruct (chat_completions_create E _ _) as [response | e];
    [destruct (getitem response 0) |]; reflexivity.
Qed.

End RetrievalProperties.

(** C2, as stated, fails: with two vectors in the index and one chunk in
    the chunk store, the search returns position 1, which is not the
    sentinel, and the lookup [chunks[1]] raises [IndexError]. *)
Lemma retrieve_out_of_range_position_raises :
  fst (RagAnswer.retrieve (Demo.env true) "claims process"
         [Demo.Unit (Demo.Raw "a"); Demo.Unit (Demo.Raw "b")] ["a"] 4
         Demo.empty_sys)
  = Raise (IndexError "list index out of range").
Proof. reflexivity. Qed.

Lemma retrieve_maps_positions_to_chunks_witness :
  exists hits,
    fst (RagAnswer.retrieve (Demo.env true) "claims process"
           [Demo.Unit (Demo.Raw "a"); Demo.Unit (Demo.Raw "b")] ["a"; "b"] 4
           Demo.empty_sys) = Return hits /\
    Forall2 (fun i c => i <> -1 /\ nth_error ["a"; "b"] (Z.to_nat i) = Some c)
            (matches [0; 1; -1; -1]) hits.
Proof.
  apply (@retrieve_maps_positions_to_chunks _ _ (Demo.env true) "claims process"
           [Demo.Unit (Demo.Raw "a"); Demo.Unit (Demo.Raw "b")] ["a"; "b"] 4
           Demo.empty_sys (Demo.Raw "claims process") [] [0; 1; -1; -1]).
  - reflexivity.
  - reflexivity.
  - repeat constructor; cbn; lia.
Defined.

Lemma retrieve_at_most_k_witness :
  RagAnswer.retrieve_k_default = 4 /\
  (length ["a"; "b"] <= Z.to_nat 4)%nat /\
  exists qvec ids,
    Demo.search [Demo.Unit (Demo.Raw "a"); Demo.Unit (Demo.Raw "b")] qvec 4
      = Return ids /\
    Forall2 (fun i c => i <> -1 /\ getitem ["a"; "b"] i = Return c)
            (matches ids) ["a"; "b"].
Proof.
  apply (@retrieve_at_most_k _ _ (Demo.env true) "claims process"
           [Demo.Unit (Demo.Raw "a"); Demo.Unit (Demo.Raw "b")] ["a"; "b"] 4
           Demo.empty_sys
           {| disk := Demo.no_files;
              calls := [EmbeddingsCreate "text-embedding-3-small" ["claims process"];
                        IndexSearch [Demo.Unit (Demo.Raw "a"); Demo.Unit (Demo.Raw "b")]
                          (Demo.Unit (Demo.Raw "claims process")) 4] |}
           ["a"; "b"]).
  - intros qvec ids H. injection H as <-. reflexivity.
  - reflexivity.
Defined.

Lemma retrieve_searches_with_normalized_query_witness :
  fst (RagAnswer.embed_query (Demo.env true) "claims process" Demo.empty_sys)
    = Return (Demo.Unit (Demo.Raw "claims process")) /\
  calls (snd (RagAnswer.retrieve (Demo.env true) "claims process"
                [Demo.Unit (Demo.Raw "a")] ["a"] 4 Demo.empty_sys)) =
    [EmbeddingsCreate "text-embedding-3-small" ["claims process"];
     IndexSearch [Demo.Unit (Demo.Raw "a")] (Demo.Unit (Demo.Raw "claims process")) 4].
Proof.
  apply (@retrieve_searches_with_normalized_query _ _ (Demo.env true)
           "claims process" [Demo.Unit (Demo.Raw "a")] ["a"] 4 Demo.empty_sys
           (Demo.Raw "claims process") []).
  reflexivity.
Defined.

(** ** The service boundary: [chat] *)

Section ChatProperties.

Context {Vec Index : Type} (E : Env Vec Index).

(** C4. Called while the knowledge base is absent (neither global is
    set and neither file exists), [chat] returns the answer
    "Knowledge base not ingested yet. Call /ingest first." as a normal
    JSON body, raises nothing, and leaves the world as it found it: no
    file is touched and no call to the embedding or completion provider
    is made. *)
Theorem chat_before_ingestion (payload : Main.ChatIn) (w : Main.World Vec Index) :
  Main.index w = None ->
  Main.chunks w = None ->
  os_path_exists (disk (Main.sys w)) INDEX_PATH = false ->
  os_path_exists (disk (Main.sys w)) META_PATH = false ->
  Main.chat E payload w =
    (Main.Json {| Main.answer := "Knowledge base not ingested yet. Call /ingest first." |}, w)
  /\ calls (Main.sys (snd (Main.chat E payload w))) = calls (Main.sys w).
Proof.
  intros Hindex Hchunks Hi Hm.
  assert (Hrun : Main.chat E payload w =
    (Main.Json {| Main.answer := "Knowledge base not ingested yet. Call /ingest first." |}, w)).
  { unfold Main.chat, Main.handle, Main.chat_try.
    rewrite Hindex, Hi. reflexivity. }
  split; [exact Hrun | now rewrite Hrun].
Qed.

Lemma chat_answer_run (payload : Main.ChatIn) (i : Index) (c : list string)
    (w : Main.World Vec Index) :
  Main.chat_answer E payload i c w =
    match RagAnswer.retrieve E (Main.message payload) i c 4 (Main.sys w) with
    | (Return hits, s1) =>
        match RagAnswer.generate_answer E (Main.message payload) hits s1 with
        | (Return text, s2) => (Return {| Main.answer := text |}, with_sys w s2)
        | (Raise e, s2) => (Raise e, with_sys w s2)
        end
    | (Raise e, s1) => (Raise e, with_sys w s1)
    end.
Proof.
  unfold Main.chat_answer, bind, Main.lift, ret, with_sys,
    RagAnswer.retrieve_k_default.
  destruct (RagAnswer.retrieve E _ i c 4 (Main.sys w)) as [[hits | e] s1];
    [| reflexivity]. cbn.
  destruct (RagAnswer.generate_answer E _ hits s1) as [[text | e] s2];
    reflexivity.
Qed.

(** With both globals set, [chat] goes straight to retrieval. *)
Lemma chat_ready (payload : Main.ChatIn) (w : Main.World Vec Index)
    (i : Index) (c : list string) :
  Main.index w = Some i ->
  Main.chunks w = Some c ->
  Main.chat E payload w =
    Main.handle "Error processing request: " (Main.chat_answer E payload i c) w.
Proof.
  intros Hi Hc. unfold Main.chat, Main.handle, Main.chat_try.
  now rewrite Hi, Hc.
Qed.

(** With a global unset, [chat] looks at the two files. *)
Lemma chat_unset (payload : Main.ChatIn) (w : Main.World Vec Index) :
  Main.index w = None \/ Main.chunks w = None ->
  Main.chat_try E payload w =
    if os_path_exists (disk (Main.sys w)) INDEX_PATH
       && os_path_exists (disk (Main.sys w)) META_PATH
    then
      match load_index E INDEX_PATH META_PATH (Main.sys w) with
      | (Return loaded, s1) =>
          Main.chat_answer E payload (fst loaded) (snd loaded)
            {| Main.index := Some (fst loaded);
               Main.chunks := Some (snd loaded);
               Main.sys := s1 |}
      | (Raise e, s1) => (Raise e, with_sys w s1)
      end
    else (Return {| Main.answer := Main.NOT_INGESTED |}, w).
Proof.
  intros Hunset. unfold Main.chat_try.
  destruct (Main.index w) as [i |] eqn:Hi, (Main.chunks w) as [c |] eqn:Hc;
    try (destruct Hunset; discriminate);
    (destruct (_ && _); [| reflexivity]);
    unfold bind, Main.lift, Main.set_index, Main.set_chunks, modify, with_sys;
    destruct (load_index E INDEX_PATH META_PATH (Main.sys w)) as [[loaded | e] s1];
    cbn; rewrite ?Hi, ?Hc; reflexivity.
Qed.

Lemma chat_answer_Json (payload : Main.ChatIn) (i : Index) (c : list string)
    (w w' : Main.World Vec Index) (r : Main.ChatOut) :
  Main.handle "Error processing request: " (Main.chat_answer E payload i c) w
    = (Main.Json r, w') ->
  answered_by_model E payload r w'.
Proof.
  unfold Main.handle. rewrite chat_answer_run.
  destruct (RagAnswer.retrieve E _ i c 4 (Main.sys w)) as [[hits | e] s1].
  - rewrite generate_answer_run. cbn zeta.
    destruct (chat_completions_create E _ _) as [texts | e] eqn:Hreply.
    + destruct (getitem texts 0) as [text | e] eqn:Hget.
      * intros H. injection H as <- <-.
        exists hits, texts, (calls s1). cbn. now repeat split.
      * destruct (is_OpenAIError e); discriminate.
    + destruct (is_OpenAIError (answer_failure e)); discriminate.
  - destruct (is_OpenAIError e); discriminate.
Qed.

(** C10.  When a global is unset and both files exist, [chat] first loads
    the knowledge base from the files and then answers as it does with
    that knowledge base in memory: it sets both globals to what was
    loaded, retrieves from the loaded index and chunks for the message
    and returns the text [generate_answer] composes from the hits, as a
    JSON body.  When a global is unset and a file is missing it returns
    the "not yet ingested" notice and touches nothing.  In no other
    state does [chat] itself produce the notice: every other answer it
    returns is the completion model's reply. *)
Theorem chat_falls_back_to_disk (payload : Main.ChatIn) (w : Main.World Vec Index) :
  (Main.index w = None \/ Main.chunks w = None ->
   os_path_exists (disk (Main.sys w)) INDEX_PATH = true ->
   os_path_exists (disk (Main.sys w)) META_PATH = true ->
   forall loaded s1,
     load_index E INDEX_PATH META_PATH (Main.sys w) = (Return loaded, s1) ->
     Main.chat E payload w =
       Main.chat E payload {| Main.index := Some (fst loaded);
                              Main.chunks := Some (snd loaded);
                              Main.sys := s1 |}) /\
  (Main.index w = None \/ Main.chunks w = None ->
   os_path_exists (disk (Main.sys w)) INDEX_PATH = true ->
   os_path_exists (disk (Main.sys w)) META_PATH = true ->
   forall loaded s1 hits s2 text s3,
     load_index E INDEX_PATH META_PATH (Main.sys w) = (Return loaded, s1) ->
     RagAnswer.retrieve E (Main.message payload) (fst loaded) (snd loaded) 4 s1
       = (Return hits, s2) ->
     RagAnswer.generate_answer E (Main.message payload) hits s2
       = (Return text, s3) ->
     Main.chat E payload w =
       (Main.Json {| Main.answer := text |},
        {| Main.index := Some (fst loaded);
           Main.chunks := Some (snd loaded);
           Main.sys := s3 |})) /\
  (Main.index w = None \/ Main.chunks w = None ->
   os_path_exists (disk (Main.sys w)) INDEX_PATH = false \/
   os_path_exists (disk (Main.sys w)) META_PATH = false ->
   Main.chat E payload w =
     (Main.Json {| Main.answer := "Knowledge base not ingested yet. Call /ingest first." |}, w)) /\
  (forall r w',
     Main.chat E payload w = (Main.Json r, w') ->
     ((Main.index w = None \/ Main.chunks w = None) /\
      (os_path_exists (disk (Main.sys w)) INDEX_PATH = false \/
       os_path_exists (disk (Main.sys w)) META_PATH = false) /\
      r = {| Main.answer := "Knowledge base not ingested yet. Call /ingest first." |} /\
      w' = w)
     \/ answered_by_model E payload r w').
Proof.
  split; [| split; [| split]].
  - intros Hunset Hi Hm loaded s1 Hload.
    rewrite (@chat_ready payload {| Main.index := Some (fst loaded);
                                    Main.chunks := Some (snd loaded);
                                    Main.sys := s1 |}
               (fst loaded) (snd loaded) eq_refl eq_refl).
    unfold Main.chat, Main.handle.
    now rewrite (@chat_unset payload w Hunset), Hi, Hm, Hload.
  - intros Hunset Hi Hm loaded s1 hits s2 text s3 Hload Hretrieve Hanswer.
    unfold Main.chat, Main.handle.
    rewrite (@chat_unset payload w Hunset), Hi, Hm, Hload. cbn [andb].
    rewrite chat_answer_run. cbn [Main.sys].
    now rewrite Hretrieve, Hanswer.
  - intros Hunset Hmiss. unfold Main.chat, Main.handle.
    rewrite (@chat_unset payload w Hunset).
    destruct Hmiss as [-> | ->]; [reflexivity |].
    now rewrite andb_false_r.
  - intros r w' Hrun.
    destruct (Main.index w) as [i |] eqn:Hi, (Main.chunks w) as [c |] eqn:Hc.
    1: { right. rewrite (@chat_ready payload w i c Hi Hc) in Hrun.
         exact (@chat_answer_Json payload i c w w' r Hrun). }
    all: assert (Hunset : Main.index w = None \/ Main.chunks w = None)
           by (rewrite Hi, Hc; auto);
         unfold Main.chat, Main.handle in Hrun;
         rewrite (@chat_unset payload w Hunset) in Hrun;
         destruct (os_path_exists (disk (Main.sys w)) INDEX_PATH) eqn:Hei;
         destruct (os_path_exists (disk (Main.sys w)) META_PATH) eqn:Hem;
         cbn [andb] in Hrun;
         try (left; injection Hrun as <- <-;
              rewrite ?Hi, ?Hc; repeat split; auto; fail).
    all: right;
         destruct (load_index E INDEX_PATH META_PATH (Main.sys w))
           as [[loaded | e] s1];
         [ exact (@chat_answer_Json payload (fst loaded) (snd loaded) _ w' r Hrun)
         | destruct (is_OpenAIError e); discriminate ].
Qed.

(** ** The service boundary: errors *)

Lemma handle_Raise {A : Type} (what : string) (m : M (Main.World Vec Index) A)
    (w w' : Main.World Vec Index) (e : exn) :
  m w = (Raise e, w') ->
  Main.handle what m w =
    (Main.HTTPException 500
       (if is_OpenAIError e then "OpenAI API error: " ++ str e
        else what ++ str e), w').
Proof.
  intros Hrun. unfold Main.handle. rewrite Hrun.
  destruct (is_OpenAIError e); reflexivity.
Qed.

(** [chat], once the knowledge base it answers from is known. *)
Lemma chat_with_kb (payload : Main.ChatIn) (w : Main.World Vec Index)
    (i : Index) (c : list string) (s0 : Sys Vec Index) :
  kb_for_chat E w i c s0 ->
  exists w0,
    Main.sys w0 = s0 /\
    Main.chat E payload w =
      Main.handle "Error processing request: " (Main.chat_answer E payload i c) w0.
Proof.
  intros [i' c' Hi Hc | i' c' s0' Hunset Hei Hem Hload].
  - exists w. split; [reflexivity | now apply chat_ready].
  - exists {| Main.index := Some i'; Main.chunks := Some c'; Main.sys := s0' |}.
    split; [reflexivity |].
    unfold Main.chat, Main.handle at 1.
    now rewrite (@chat_unset payload w Hunset), Hei, Hem, Hload.
Qed.

Lemma ingest_try_run (w : Main.World Vec Index) :
  Main.ingest_try E w =
    match pdf_to_text E PDF_PATH (Main.sys w) with
    | (Raise e, s1) => (Raise e, with_sys w s1)
    | (Return text, s1) =>
        match chunk_text E text s1 with
        | (Raise e, s2) => (Raise e, with_sys w s2)
        | (Return cs, s2) =>
            match build_and_save_index E cs INDEX_PATH META_PATH s2 with
            | (Raise e, s3) =>
                (Raise e, {| Main.index := Main.index w;
                             Main.chunks := Some cs;
                             Main.sys := s3 |})
            | (Return _, s3) =>
                match load_index E INDEX_PATH META_PATH s3 with
                | (Raise e, s4) =>
                    (Raise e, {| Main.index := Main.index w;
                                 Main.chunks := Some cs;
                                 Main.sys := s4 |})
                | (Return loaded, s4) =>
                    (Return {| Main.status := "ok";
                               Main.chunks_count := length (snd loaded) |},
                     {| Main.index := Some (fst loaded);
                        Main.chunks := Some (snd loaded);
                        Main.sys := s4 |})
                end
            end
        end
    end.
Proof.
  unfold Main.ingest_try, bind, Main.lift, Main.set_index, Main.set_chunks,
    modify, ret, with_sys.
  destruct (pdf_to_text E PDF_PATH (Main.sys w)) as [[text | e] s1];
    [| reflexivity]. cbn.
  destruct (chunk_text E text s1) as [[cs | e] s2]; [| reflexivity]. cbn.
  destruct (build_and_save_index E cs INDEX_PATH META_PATH s2) as [[u | e] s3];
    [| reflexivity]. cbn.
  destruct (load_index E INDEX_PATH META_PATH s3) as [[loaded | e] s4];
    reflexivity.
Qed.

(** C5, as amended.  When a collaborator raises during [ingest] or
    [chat], the endpoint reports a failure (status 500) whose detail
    holds the exception's message behind one of two prefixes:
    "OpenAI API error: " for a provider error, otherwise the endpoint's
    own, "Error during ingestion: " or "Error processing request: ".
    The detail names the provider or the endpoint, not the stage that
    failed; only a provider error met while embedding the query or
    composing the answer also carries the message of that stage.  The
    state outside the process is left as the failing call left it:
    nothing is called again or afterwards.  In particular a provider
    error during [ingest] is reported with the prefix
    "OpenAI API error: ". *)
Theorem collaborator_errors_surface (req : Request) (w : Main.World Vec Index)
    (st : Stage) (e : exn) (s' : Sys Vec Index) :
  collaborator_raises E w req st e s' ->
  fst (serve E req w) = Some (500, boundary_detail req (raised_from st e)) /\
  Main.sys (snd (serve E req w)) = s' /\
  (req = Ingest -> is_OpenAIError e = true ->
   fst (serve E req w) = Some (500, "OpenAI API error: " ++ str e)).
Proof.
  intros Hraise.
  assert (Hmain : fst (serve E req w) = Some (500, boundary_detail req (raised_from st e))
                  /\ Main.sys (snd (serve E req w)) = s').
  { destruct Hraise as
      [ e s' Hpdf | text s1 e s' Hpdf Hchunk | text s1 cs s2 e s' Hpdf Hchunk Hbuild
      | text s1 cs s2 s3 e s' Hpdf Hchunk Hbuild Hload
      | payload e s' Hunset Hei Hem Hload
      | payload i c s0 e Hkb Hembed
      | payload i c s0 v more e Hkb Hembed Hsearch
      | payload i c s0 hits s1 e Hkb Hretrieve Hreply ]; cbn [serve raised_from].
    1-4: unfold Main.ingest, boundary_detail;
         erewrite handle_Raise
           by (rewrite ingest_try_run, Hpdf, ?Hchunk, ?Hbuild, ?Hload; reflexivity);
         now destruct (is_OpenAIError e).
    - unfold Main.chat, boundary_detail.
      erewrite handle_Raise
        by (rewrite (@chat_unset payload w Hunset), Hei, Hem, Hload; reflexivity).
      now destruct (is_OpenAIError e).
    - destruct (@chat_with_kb payload w i c s0 Hkb) as (w0 & <- & ->).
      unfold boundary_detail.
      erewrite handle_Raise
        by (rewrite chat_answer_run, retrieve_run, embed_query_run, Hembed;
            reflexivity).
      now destruct (is_OpenAIError (embedding_failure e)).
    - destruct (@chat_with_kb payload w i c s0 Hkb) as (w0 & <- & ->).
      unfold boundary_detail.
      erewrite handle_Raise
        by (rewrite chat_answer_run, retrieve_run, embed_query_run, Hembed;
            cbn; rewrite Hsearch; reflexivity).
      now destruct (is_OpenAIError e).
    - destruct (@chat_with_kb payload w i c s0 Hkb) as (w0 & <- & ->).
      unfold boundary_detail.
      erewrite handle_Raise
        by (rewrite chat_answer_run, Hretrieve, generate_answer_run; cbn zeta;
            rewrite Hreply; reflexivity).
      now destruct (is_OpenAIError (answer_failure e)). }
  destruct Hmain as [Hfail Hsys]. repeat split; [exact Hfail | exact Hsys |].
  intros -> Hprovider. rewrite Hfail. unfold boundary_detail.
  inversion Hraise; subst; cbn [raised_from]; now rewrite Hprovider.
Qed.

(** X11.  A failing [ingest] never changes the global [index]: whatever
    stage failed, the index in memory is the one from before the call. *)
Lemma ingest_failure_keeps_index (w : Main.World Vec Index)
    (status_code : Z) (detail : string) :
  fst (Main.ingest E w) = Main.HTTPException status_code detail ->
  Main.index (snd (Main.ingest E w)) = Main.index w.
Proof.
  unfold Main.ingest, Main.handle. rewrite ingest_try_run.
  destruct (pdf_to_text E PDF_PATH (Main.sys w)) as [[text | e] s1].
  2: now destruct (is_OpenAIError e).
  destruct (chunk_text E text s1) as [[cs | e] s2].
  2: now destruct (is_OpenAIError e).
  destruct (build_and_save_index E cs INDEX_PATH META_PATH s2) as [[u | e] s3].
  2: now destruct (is_OpenAIError e).
  destruct (load_index E INDEX_PATH META_PATH s3) as [[loaded | e] s4].
  - discriminate.
  - now destruct (is_OpenAIError e).
Qed.

(** A failure of the index builder leaves the chunks of the new document
    in the global [chunks], next to the old [index]. *)
Lemma ingest_indexing_failure_state (w : Main.World Vec Index)
    (text : string) (s1 : Sys Vec Index) (cs : list string)
    (s2 : Sys Vec Index) (e : exn) (s3 : Sys Vec Index) :
  pdf_to_text E PDF_PATH (Main.sys w) = (Return text, s1) ->
  chunk_text E text s1 = (Return cs, s2) ->
  build_and_save_index E cs INDEX_PATH META_PATH s2 = (Raise e, s3) ->
  snd (Main.ingest E w) =
    {| Main.index := Main.index w; Main.chunks := Some cs; Main.sys := s3 |}.
Proof.
  intros Hpdf Hchunk Hbuild.
  unfold Main.ingest, Main.handle.
  rewrite ingest_try_run, Hpdf, Hchunk, Hbuild.
  now destruct (is_OpenAIError e).
Qed.

End ChatProperties.

Lemma chat_before_ingestion_witness :
  Main.chat (Demo.env true) {| Main.message := "How do I file a claim?" |} Demo.absent_world =
    (Main.Json {| Main.answer := "Knowledge base not ingested yet. Call /ingest first." |},
     Demo.absent_world)
  /\ calls (Main.sys (snd (Main.chat (Demo.env true)
              {| Main.message := "How do I file a claim?" |} Demo.absent_world))) = [].
Proof.
  apply (chat_before_ingestion (Demo.env true)
           {| Main.message := "How do I file a claim?" |} Demo.absent_world);
    reflexivity.
Defined.

Lemma chat_falls_back_to_disk_witness :
  Main.chat (Demo.env true) {| Main.message := "How do I file a claim?" |}
    Demo.restarted_world =
  (Main.Json {| Main.answer := "I don't have that; let me get you human support." |},
   {| Main.index := Some [Demo.Unit (Demo.Raw "old policy text")];
      Main.chunks := Some ["old policy text"];
      Main.sys :=
        {| disk := Demo.ready_disk;
           calls :=
             [EmbeddingsCreate "text-embedding-3-small" ["How do I file a claim?"];
              IndexSearch [Demo.Unit (Demo.Raw "old policy text")]
                (Demo.Unit (Demo.Raw "How do I file a claim?")) 4;
              ChatCompletionsCreate "gpt-4o-mini"
                (RagAnswer.messages_of "old policy text"
                   "How do I file a claim?")] |} |}).
Proof.
  exact (proj1 (proj2 (@chat_falls_back_to_disk _ _ (Demo.env true)
                         {| Main.message := "How do I file a claim?" |}
                         Demo.restarted_world))
           (or_introl eq_refl) eq_refl eq_refl
           ([Demo.Unit (Demo.Raw "old policy text")], ["old policy text"])
           {| disk := Demo.ready_disk; calls := [] |}
           ["old policy text"]
           {| disk := Demo.ready_disk;
              calls :=
                [EmbeddingsCreate "text-embedding-3-small" ["How do I file a claim?"];
                 IndexSearch [Demo.Unit (Demo.Raw "old policy text")]
                   (Demo.Unit (Demo.Raw "How do I file a claim?")) 4] |}
           "I don't have that; let me get you human support."
           {| disk := Demo.ready_disk;
              calls :=
                [EmbeddingsCreate "text-embedding-3-small" ["How do I file a claim?"];
                 IndexSearch [Demo.Unit (Demo.Raw "old policy text")]
                   (Demo.Unit (Demo.Raw "How do I file a claim?")) 4;
                 ChatCompletionsCreate "gpt-4o-mini"
                   (RagAnswer.messages_of "old policy text"
                      "How do I file a claim?")] |}
           eq_refl eq_refl eq_refl).
Defined.

Lemma collaborator_errors_surface_witness :
  fst (serve (Demo.env false) Ingest Demo.ready_world) =
    Some (500, "OpenAI API error: Failed to generate embeddings: Incorrect API key provided") /\
  Main.sys (snd (serve (Demo.env false) Ingest Demo.ready_world)) =
    {| disk := Demo.ready_disk;
       calls := [EmbeddingsCreate "text-embedding-3-small" ["new policy text"]] |} /\
  (Ingest = Ingest -> true = true ->
   fst (serve (Demo.env false) Ingest Demo.ready_world) =
     Some (500, "OpenAI API error: Failed to generate embeddings: Incorrect API key provided")).
Proof.
  apply (@collaborator_errors_surface _ _ (Demo.env false) Ingest
           Demo.ready_world Indexing
           (OpenAIError "Failed to generate embeddings: Incorrect API key provided")).
  apply (@raises_indexing _ _ (Demo.env false) Demo.ready_world
           "new policy text" {| disk := Demo.ready_disk; calls := [] |}
           ["new policy text"] {| disk := Demo.ready_disk; calls := [] |});
    reflexivity.
Defined.

(** C5, as stated, fails: the detail does not identify the failing
    stage.  A text extractor that raises and an index loader that
    raises the same exception, after extraction, chunking and indexing
    have succeeded, make [ingest] report the very same failure. *)
Lemma ingest_detail_is_blind_to_the_stage :
  collaborator_raises (Faulty.env Extraction) Demo.ready_world
    Ingest Extraction Faulty.failure (Main.sys Demo.ready_world) /\
  collaborator_raises (Faulty.env Loading) Demo.ready_world
    Ingest Loading Faulty.failure Faulty.saved_sys /\
  fst (serve (Faulty.env Extraction) Ingest Demo.ready_world)
    = Some (500, "Error during ingestion: storage unavailable") /\
  fst (serve (Faulty.env Loading) Ingest Demo.ready_world)
    = Some (500, "Error during ingestion: storage unavailable").
Proof.
  split; [| split; [| split; reflexivity]].
  - apply raises_extraction. reflexivity.
  - apply (@raises_loading_ingest _ _ (Faulty.env Loading) Demo.ready_world
             "new policy text" (Main.sys Demo.ready_world)
             ["new policy text"] (Main.sys Demo.ready_world)
             Faulty.saved_sys);
      reflexivity.
Qed.

(** ** Ingestion *)

(** C1 fails on the code.  A knowledge base of one chunk is loaded and
    persisted, a new document is in place, and the provider refuses the
    embedding call made while the index is built.  [ingest] reports the
    failure; the files and the global [index] are as before, but the
    global [chunks] now holds the chunks of the new document, assigned
    before the index was built. *)
Theorem ingest_failure_replaces_chunks :
  Main.chunks Demo.ready_world = Some ["old policy text"] /\
  Main.ingest (Demo.env false) Demo.ready_world =
    (Main.HTTPException 500
       "OpenAI API error: Failed to generate embeddings: Incorrect API key provided",
     {| Main.index := Main.index Demo.ready_world;
        Main.chunks := Some ["new policy text"];
        Main.sys :=
          {| disk := Demo.ready_disk;
             calls := [EmbeddingsCreate "text-embedding-3-small"
                         ["new policy text"]] |} |}).
Proof. split; reflexivity. Qed.

(** ** The chunker *)

Section ChunkingProperties.

Local Open Scope nat_scope.

Context {A : Type}.

Lemma spans_from_chained (len size overlap start : nat) :
  overlap < size -> start < len ->
  chained len size overlap start (Chunking.spans_from len size overlap start).
Proof.
  funelim (Chunking.spans_from len size overlap start); intros Hov Hstart.
  - lia.
  - now constructor.
  - lia.
  - constructor; [assumption |].
    match goal with IH : _ -> _ -> chained _ _ _ _ _ |- _ => apply IH end; lia.
Qed.

Lemma chained_head (len size overlap start : nat) (spans : list (nat * nat)) :
  overlap < size ->
  chained len size overlap start spans ->
  exists e rest,
    spans = (start, e) :: rest /\ start < len /\ e = Nat.min (start + size) len.
Proof.
  intros Hov [s Hlt Hle | s rest Hlt Hrest].
  - exists len, []. repeat split; lia.
  - exists (s + size), rest. repeat split; lia.
Qed.

(** Two neighbours in a chain: the left one is full, the right one
    begins [overlap] before its end and reaches further. *)
Lemma chained_neighbours (len size overlap : nat) (spans : list (nat * nat)) :
  overlap < size ->
  forall start, chained len size overlap start spans ->
  forall n b1 e1 b2 e2,
    nth_error spans n = Some (b1, e1) ->
    nth_error spans (S n) = Some (b2, e2) ->
    e1 = b1 + size /\ b2 = e1 - overlap /\ e1 < e2 <= len.
Proof.
  intros Hov start Hchain.
  induction Hchain as [s Hlt Hle | s rest Hlt Hrest IH]; intros n b1 e1 b2 e2 H1 H2.
  - destruct n as [| [| n]]; discriminate.
  - destruct n as [| n].
    + cbn in H1, H2. injection H1 as <- <-.
      destruct (@chained_head _ _ _ _ _ Hov Hrest) as (e & rest' & -> & He & ->).
      cbn in H2. injection H2 as <- <-. lia.
    + exact (IH n b1 e1 b2 e2 H1 H2).
Qed.

Lemma chained_bounds (len size overlap : nat) (spans : list (nat * nat)) :
  overlap < size ->
  forall start, chained len size overlap start spans ->
  Forall (fun span => fst span < snd span <= len /\ snd span - fst span <= size)
         spans.
Proof.
  intros Hov start Hchain.
  induction Hchain as [s Hlt Hle | s rest Hlt Hrest IH]; constructor;
    cbn; try lia; auto.
Qed.

(** The chunks of a chain, each without its first [overlap] characters,
    make up the text from [start + overlap] on. *)
Lemma chained_tails (text : list A) (size overlap : nat)
    (spans : list (nat * nat)) :
  overlap < size ->
  forall start, chained (length text) size overlap start spans ->
  concat (map (skipn overlap) (map (Chunking.slice text) spans))
    = skipn (start + overlap) text.
Proof.
  intros Hov start Hchain.
  induction Hchain as [s Hlt Hle | s rest Hlt Hrest IH]; cbn [map concat].
  - rewrite app_nil_r. unfold Chunking.slice. cbn [fst snd].
    rewrite firstn_all2 by (rewrite length_skipn; lia).
    rewrite skipn_skipn. f_equal. lia.
  - rewrite IH. unfold Chunking.slice. cbn [fst snd].
    replace (s + size - s) with size by lia.
    replace (s + size - overlap + overlap) with (size + s) by lia.
    rewrite <- (skipn_skipn size s text).
    replace (s + overlap) with (overlap + s) by lia.
    rewrite <- (skipn_skipn overlap s text).
    set (X := skipn s text).
    assert (HX : size <= length X) by (unfold X; rewrite length_skipn; lia).
    rewrite <- (firstn_skipn size X) at 3.
    rewrite skipn_app, length_firstn.
    replace (overlap - Nat.min size (length X)) with 0 by lia.
    reflexivity.
Qed.

Lemma slice_length (text : list A) (b e : nat) :
  b <= e <= length text -> length (Chunking.slice text (b, e)) = e - b.
Proof.
  intros H. unfold Chunking.slice. cbn [fst snd].
  rewrite length_firstn, length_skipn. lia.
Qed.

(** The chunks, the first [overlap] characters of every chunk but the
    first removed, concatenate to the text. *)
Lemma chunk_list_unoverlap (text : list A) (size overlap : nat) :
  overlap < size ->
  Chunking.unoverlap overlap (Chunking.chunk_list text size overlap) = text.
Proof.
  intros Hov.
  destruct (Nat.eq_dec (length text) 0) as [Hzero | Hpos].
  { apply length_zero_iff_nil in Hzero. now subst text. }
  assert (Hlen : 0 < length text) by lia.
  pose proof (@spans_from_chained (length text) size overlap 0 Hov Hlen) as Hchain.
  unfold Chunking.chunk_list.
  inversion Hchain as [s Hlt Hle Hs Hspans | s rest Hlt Hrest Hs Hspans];
    subst s.
  - cbn [map Chunking.unoverlap concat].
    rewrite app_nil_r. unfold Chunking.slice. cbn [fst snd skipn].
    rewrite Nat.sub_0_r. apply firstn_all.
  - cbn [map Chunking.unoverlap].
    rewrite (@chained_tails text size overlap rest Hov _ Hrest).
    unfold Chunking.slice. cbn [fst snd skipn].
    rewrite Nat.add_0_l, Nat.sub_0_r.
    replace (size - overlap + overlap) with size by lia.
    apply firstn_skipn.
Qed.

(** C7.  For every text and every overlap smaller than the chunk size,
    the chunker returns the texts of its spans; an empty text has no
    chunk; the chunks, the first [overlap] characters of every chunk but
    the first removed, concatenate to the text; no chunk is longer than
    the chunk size; chunk n+1 begins at the end of chunk n minus
    [overlap], and the last [overlap] characters of chunk n are the
    first [overlap] characters of chunk n+1. *)
Theorem chunking_covers_text (text : list A) (size overlap : nat) :
  overlap < size ->
  let spans := Chunking.spans_from (length text) size overlap 0 in
  let cs := Chunking.chunk_list text size overlap in
  cs = map (Chunking.slice text) spans /\
  (text = [] -> cs = []) /\
  Chunking.unoverlap overlap cs = text /\
  Forall (fun c => length c <= size) cs /\
  (forall n b1 e1 b2 e2,
     nth_error spans n = Some (b1, e1) ->
     nth_error spans (S n) = Some (b2, e2) ->
     b2 = e1 - overlap /\ overlap <= e1) /\
  (forall n c1 c2,
     nth_error cs n = Some c1 ->
     nth_error cs (S n) = Some c2 ->
     overlap <= length c1 /\ overlap <= length c2 /\
     skipn (length c1 - overlap) c1 = firstn overlap c2).
Proof.
  intros Hov spans cs.
  split; [reflexivity |].
  split.
  { intros ->. reflexivity. }
  destruct (Nat.eq_dec (length text) 0) as [Hzero | Hpos].
  { apply length_zero_iff_nil in Hzero. subst text.
    assert (Hcs : cs = []) by reflexivity.
    assert (Hspans : spans = []) by reflexivity.
    clearbody cs spans. subst cs spans.
    split; [reflexivity |]. split; [constructor |].
    split; intros [| n]; cbn; intros; discriminate. }
  assert (Hlen : 0 < length text) by lia.
  pose proof (@spans_from_chained (length text) size overlap 0 Hov Hlen) as Hchain.
  fold spans in Hchain.
  assert (Hnb := @chained_neighbours _ _ _ _ Hov 0 Hchain).
  assert (Hbounds := @chained_bounds _ _ _ _ Hov 0 Hchain).
  split; [| split; [| split]].
  - exact (@chunk_list_unoverlap text size overlap Hov).
  - unfold cs, Chunking.chunk_list. fold spans.
    rewrite Forall_map.
    eapply Forall_impl; [| exact Hbounds].
    intros [b e] [Hbe Hsz]. cbn [fst snd] in Hbe, Hsz.
    rewrite slice_length by lia. exact Hsz.
  - intros n b1 e1 b2 e2 H1 H2.
    destruct (Hnb n b1 e1 b2 e2 H1 H2) as (-> & -> & _). lia.
  - intros n c1 c2 H1 H2.
    unfold cs, Chunking.chunk_list in H1, H2. fold spans in H1, H2.
    rewrite nth_error_map in H1, H2.
    destruct (nth_error spans n) as [[b1 e1] |] eqn:Hs1; [| discriminate].
    destruct (nth_error spans (S n)) as [[b2 e2] |] eqn:Hs2; [| discriminate].
    injection H1 as <-. injection H2 as <-.
    destruct (Hnb n b1 e1 b2 e2 Hs1 Hs2) as (-> & -> & He).
    rewrite !slice_length by lia.
    split; [lia |]. split; [lia |].
    unfold Chunking.slice. cbn [fst snd].
    replace (b1 + size - b1) with size by lia.
    replace (size - overlap) with (b1 + size - overlap - b1) at 1 by lia.
    rewrite firstn_firstn.
    replace (Nat.min overlap (e2 - (b1 + size - overlap))) with overlap by lia.
    replace size with ((b1 + size - overlap - b1) + overlap) at 2 by lia.
    rewrite <- firstn_skipn_comm, skipn_skipn.
    do 2 f_equal. lia.
Qed.

End ChunkingProperties.

Lemma chunking_covers_text_witness :
  let text := list_ascii_of_string "abcdefghi" in
  let spans := Chunking.spans_from (length text) 4 2 0 in
  let cs := Chunking.chunk_list text 4 2 in
  cs = map (Chunking.slice text) spans /\
  (text = [] -> cs = []) /\
  Chunking.unoverlap 2 cs = text /\
  Forall (fun c => (length c <= 4)%nat) cs /\
  (forall n b1 e1 b2 e2,
     nth_error spans n = Some (b1, e1) ->
     nth_error spans (S n) = Some (b2, e2) ->
     b2 = (e1 - 2)%nat /\ (2 <= e1)%nat) /\
  (forall n c1 c2,
     nth_error cs n = Some c1 ->
     nth_error cs (S n) = Some c2 ->
     (2 <= length c1)%nat /\ (2 <= length c2)%nat /\
     skipn (length c1 - 2) c1 = firstn 2 c2).
Proof.
  apply (@chunking_covers_text ascii (list_ascii_of_string "abcdefghi") 4%nat 2%nat).
  lia.
Defined.

(** The chunker on strings: the chunks of a text, their overlaps
    removed, spell the text. *)
Lemma chunk_text_unoverlap (text : string) (size overlap : nat) :
  (overlap < size)%nat ->
  string_of_list_ascii
    (Chunking.unoverlap overlap
       (map list_ascii_of_string (Chunking.chunk_text text size overlap)))
  = text.
Proof.
  intros Hov. unfold Chunking.chunk_text.
  rewrite map_map.
  rewrite (map_ext _ (fun c => c)) by apply list_ascii_of_string_of_list_ascii.
  rewrite map_id, chunk_list_unoverlap by exact Hov.
  apply string_of_list_ascii_of_string.
Qed.

(** ** The index builder and loader *)

Section EmbedStoreProperties.

Context {Vec : Type} (E : Env Vec (list Vec)).

Lemma build_length (chunks : list string) (s s' : Sys Vec (list Vec))
    (index : list Vec) :
  one_vector_per_text E ->
  EmbedStore.build E chunks s = (Return index, s') ->
  length index = length chunks.
Proof.
  intros Hprovider.
  unfold EmbedStore.build, EmbedStore.embed, try_except, bind, call, ret.
  destruct (embeddings_create E RagAnswer.EMBED_MODEL chunks) as [vs | e] eqn:Hembed.
  - intros H. injection H as <- _.
    rewrite length_map. exact (Hprovider _ _ _ Hembed).
  - destruct (is_OpenAIError e); discriminate.
Qed.

Lemma load_length (index_path meta_path : Path) (s s' : Sys Vec (list Vec))
    (index : list Vec) (chunks : list string) :
  EmbedStore.load index_path meta_path s = (Return (index, chunks), s') ->
  length index = length chunks /\ s' = s /\
  read_file (disk s) index_path = Some (FaissIndex index) /\
  read_file (disk s) meta_path = Some (ChunksJson chunks).
Proof.
  unfold EmbedStore.load.
  destruct (read_file (disk s) index_path) as [[i | |] |];
    destruct (read_file (disk s) meta_path) as [[| c |] |]; try discriminate.
  destruct (Nat.eqb_spec (length i) (length c)) as [Heq | Hne]; [| discriminate].
  intros H. injection H as <- <- <-. now repeat split.
Qed.

Lemma load_after_save (index_path meta_path : Path) (index : list Vec)
    (chunks : list string) (s : Sys Vec (list Vec)) :
  index_path <> meta_path ->
  length index = length chunks ->
  EmbedStore.load index_path meta_path
    (snd (EmbedStore.save index chunks index_path meta_path s))
  = (Return (index, chunks),
     snd (EmbedStore.save index chunks index_path meta_path s)).
Proof.
  intros Hpaths Hlen. unfold EmbedStore.load, EmbedStore.save, modify. cbn.
  destruct index_path, meta_path; try contradiction; cbn;
    rewrite Hlen, Nat.eqb_refl; reflexivity.
Qed.

Lemma load_rejects_mismatch (index_path meta_path : Path)
    (s : Sys Vec (list Vec)) (index : list Vec) (chunks : list string) :
  read_file (disk s) index_path = Some (FaissIndex index) ->
  read_file (disk s) meta_path = Some (ChunksJson chunks) ->
  length index <> length chunks ->
  EmbedStore.load index_path meta_path s =
    (Raise (Exception "index and chunk store differ in length"), s).
Proof.
  intros Hi Hc Hne. unfold EmbedStore.load. rewrite Hi, Hc.
  now destruct (Nat.eqb_spec (length index) (length chunks)).
Qed.

(** C8.  With a provider that returns one vector per text: the index
    [build] returns has as many vectors as there are chunks; an index
    and a chunk store of equal length that [save] has written are what
    [load] returns; whatever [load] returns has equal lengths, and two
    files of different lengths are rejected by [load]; a successful
    [ingest] leaves in memory an index and a chunk store of equal
    length, and a successful [chat] keeps them so. *)
Theorem index_matches_chunk_store :
  one_vector_per_text E ->
  (forall chunks s index s',
     EmbedStore.build E chunks s = (Return index, s') ->
     length index = length chunks) /\
  (forall index_path meta_path (index : list Vec) chunks
          (s : Sys Vec (list Vec)),
     index_path <> meta_path ->
     length index = length chunks ->
     fst (EmbedStore.load index_path meta_path
            (snd (EmbedStore.save index chunks index_path meta_path s)))
     = Return (index, chunks)) /\
  (forall index_path meta_path (s : Sys Vec (list Vec)) index chunks s',
     EmbedStore.load index_path meta_path s = (Return (index, chunks), s') ->
     length index = length chunks) /\
  (forall index_path meta_path (s : Sys Vec (list Vec)) index chunks,
     read_file (disk s) index_path = Some (FaissIndex index) ->
     read_file (disk s) meta_path = Some (ChunksJson chunks) ->
     length index <> length chunks ->
     exists e, fst (EmbedStore.load index_path meta_path s) = Raise e) /\
  (forall size overlap w r w',
     Main.ingest (EmbedStore.with_modules E size overlap) w = (Main.Json r, w') ->
     exists index chunks,
       Main.index w' = Some index /\ Main.chunks w' = Some chunks /\
       length index = length chunks /\
       Main.chunks_count r = length chunks) /\
  (forall size overlap payload w r w',
     Main.chat (EmbedStore.with_modules E size overlap) payload w
       = (Main.Json r, w') ->
     consistent w -> consistent w').
Proof.
  intros Hprovider.
  split; [| split; [| split; [| split; [| split]]]].
  - intros chunks s index s' Hbuild.
    exact (@build_length chunks s s' index Hprovider Hbuild).
  - intros index_path meta_path index chunks s Hpaths Hlen.
    now rewrite load_after_save.
  - intros index_path meta_path s index chunks s' Hload.
    now destruct (@load_length index_path meta_path s s' index chunks Hload).
  - intros index_path meta_path s index chunks Hi Hc Hne.
    eexists. now rewrite (@load_rejects_mismatch index_path meta_path s index chunks).
  - intros size overlap w r w'.
    unfold Main.ingest, Main.handle. rewrite ingest_try_run.
    destruct (pdf_to_text _ PDF_PATH (Main.sys w)) as [[text | e] s1].
    2: now destruct (is_OpenAIError e).
    destruct (chunk_text _ text s1) as [[cs | e] s2].
    2: now destruct (is_OpenAIError e).
    destruct (build_and_save_index _ cs INDEX_PATH META_PATH s2) as [[u | e] s3].
    2: now destruct (is_OpenAIError e).
    destruct (load_index _ INDEX_PATH META_PATH s3) as [[[index chunks] | e] s4] eqn:Hload.
    2: now destruct (is_OpenAIError e).
    intros H. injection H as <- <-.
    cbn in Hload.
    destruct (@load_length INDEX_PATH META_PATH s3 s4 index chunks Hload)
      as (Hlen & _).
    exists index, chunks. now repeat split.
  - intros size overlap payload w r w' Hrun Hw.
    unfold consistent in *.
    destruct (Main.index w) as [i |] eqn:Hi, (Main.chunks w) as [c |] eqn:Hc.
    1: { rewrite (@chat_ready _ _ _ payload w i c Hi Hc) in Hrun.
         unfold Main.handle in Hrun. rewrite chat_answer_run in Hrun.
         destruct (RagAnswer.retrieve _ _ i c 4 (Main.sys w)) as [[hits | e] s1].
         2: now destruct (is_OpenAIError e).
         destruct (RagAnswer.generate_answer _ _ hits s1) as [[text | e] s2].
         2: now destruct (is_OpenAIError e).
         injection Hrun as _ <-. cbn. rewrite ?Hi, ?Hc. exact Hw. }
    all: assert (Hunset : Main.index w = None \/ Main.chunks w = None)
           by (rewrite Hi, Hc; auto);
         unfold Main.chat, Main.handle in Hrun;
         rewrite (@chat_unset _ _ _ payload w Hunset) in Hrun;
         destruct (os_path_exists (disk (Main.sys w)) INDEX_PATH
                   && os_path_exists (disk (Main.sys w)) META_PATH);
         [| injection Hrun as _ <-; rewrite ?Hi, ?Hc; exact Hw];
         destruct (load_index _ INDEX_PATH META_PATH (Main.sys w))
           as [[[index chunks] | e] s1] eqn:Hload;
         [| now destruct (is_OpenAIError e)];
         cbn in Hload;
         destruct (@load_length INDEX_PATH META_PATH _ s1 index chunks Hload)
           as (Hlen & _);
         rewrite chat_answer_run in Hrun;
         cbn [fst snd Main.sys Main.message] in Hrun;
         (destruct (RagAnswer.retrieve _ _ index chunks 4 s1) as [[hits | e] s2];
          [| now destruct (is_OpenAIError e)]);
         (destruct (RagAnswer.generate_answer _ _ hits s2) as [[text | e] s3];
          [| now destruct (is_OpenAIError e)]);
         injection Hrun as _ <-; exact Hlen.
Qed.

End EmbedStoreProperties.

Lemma index_matches_chunk_store_witness :
  one_vector_per_text (Demo.env true) /\
  length [Demo.Unit (Demo.Raw "a"); Demo.Unit (Demo.Raw "b")]
    = length ["a"; "b"].
Proof.
  assert (Hprovider : one_vector_per_text (Demo.env true)).
  { intros model texts vs H. injection H as <-. apply length_map. }
  split; [exact Hprovider |].
  exact (proj1 (@index_matches_chunk_store Demo.vec (Demo.env true) Hprovider)
           ["a"; "b"] Demo.empty_sys
           [Demo.Unit (Demo.Raw "a"); Demo.Unit (Demo.Raw "b")]
           {| disk := Demo.no_files;
              calls := [EmbeddingsCreate "text-embedding-3-small" ["a"; "b"]] |}
           eq_refl).
Defined.

(** * Further properties of the code *)

(** ** [rag_answer.py] *)

Section RagAnswerOutcomes.

Context {Vec Index : Type} (E : Env Vec Index).

Lemma getitem_0_cons {A : Type} (x : A) (l : list A) :
  getitem (x :: l) 0 = Return x.
Proof.
  unfold getitem. cbn [length].
  destruct (Z.ltb_spec 0 0); [lia |].
  destruct (Z.leb_spec 0 0); [| lia].
  destruct (Z.ltb_spec 0 (Z.of_nat (S (length l)))); [reflexivity | lia].
Qed.

Lemma getitem_Raise {A : Type} (l : list A) (i : Z) (e : exn) :
  getitem l i = Raise e ->
  e = IndexError "list index out of range" /\
  ~ in_bounds (Z.of_nat (length l)) i.
Proof.
  unfold getitem, in_bounds.
  destruct (Z.ltb_spec i 0) as [Hneg | Hpos].
  - destruct (Z.leb_spec 0 (Z.of_nat (length l) + i));
      destruct (Z.ltb_spec (Z.of_nat (length l) + i) (Z.of_nat (length l)));
      cbn [andb].
    1: { destruct (nth_error l _) eqn:Hnth; intros Hr; [discriminate Hr |].
         apply nth_error_None in Hnth. lia. }
    all: intros Hr; injection Hr as <-; split; [reflexivity | lia].
  - destruct (Z.leb_spec 0 i);
      destruct (Z.ltb_spec i (Z.of_nat (length l))); cbn [andb].
    1: { destruct (nth_error l _) eqn:Hnth; intros Hr; [discriminate Hr |].
         apply nth_error_None in Hnth. lia. }
    all: intros Hr; injection Hr as <-; split; [reflexivity | lia].
Qed.

Lemma getitem_Return {A : Type} (l : list A) (i : Z) (x : A) :
  getitem l i = Return x ->
  in_bounds (Z.of_nat (length l)) i /\
  nth_error l (Z.to_nat (wrapped (Z.of_nat (length l)) i)) = Some x.
Proof.
  unfold getitem, in_bounds, wrapped.
  destruct (Z.ltb_spec i 0) as [Hneg | Hpos].
  - destruct (Z.leb_spec 0 (Z.of_nat (length l) + i));
      destruct (Z.ltb_spec (Z.of_nat (length l) + i) (Z.of_nat (length l)));
      cbn [andb]; try (intros Hr; discriminate Hr).
    destruct (nth_error l _) eqn:Hnth; intros Hr; [| discriminate Hr].
    injection Hr as <-. split; [lia | reflexivity].
  - destruct (Z.leb_spec 0 i);
      destruct (Z.ltb_spec i (Z.of_nat (length l)));
      cbn [andb]; try (intros Hr; discriminate Hr).
    destruct (nth_error l _) eqn:Hnth; intros Hr; [| discriminate Hr].
    injection Hr as <-. split; [lia | reflexivity].
Qed.

Lemma getitem_in_bounds {A : Type} (l : list A) (i : Z) :
  in_bounds (Z.of_nat (length l)) i -> exists x, getitem l i = Return x.
Proof.
  intros Hi. destruct (getitem l i) as [x | e] eqn:Hget; [now exists x |].
  now destruct (@getitem_Raise _ l i e Hget).
Qed.

(** X1.  Whatever the provider does, [embed_query] makes one embedding
    call, for the model "text-embedding-3-small" and the one-element
    batch holding the query, and nothing else.  An [OpenAIError] that
    leaves it is the provider's, under the prefix
    "Failed to generate embedding: "; a reply without any embedding
    raises [IndexError], which is not caught; of a reply with several
    embeddings only the first is used. *)
Theorem embed_query_outcomes (query : string) (s : Sys Vec Index) :
  snd (RagAnswer.embed_query E query s)
    = logged s (EmbeddingsCreate "text-embedding-3-small" [query]) /\
  (forall m,
     fst (RagAnswer.embed_query E query s) = Raise (OpenAIError m) ->
     exists m',
       embeddings_create E "text-embedding-3-small" [query]
         = Raise (OpenAIError m') /\
       m = "Failed to generate embedding: " ++ m') /\
  (embeddings_create E "text-embedding-3-small" [query] = Return [] ->
   fst (RagAnswer.embed_query E query s)
     = Raise (IndexError "list index out of range")) /\
  (forall v more,
     embeddings_create E "text-embedding-3-small" [query] = Return (v :: more) ->
     fst (RagAnswer.embed_query E query s) = Return (normalize_L2 E v)).
Proof.
  rewrite embed_query_run. cbn zeta.
  change RagAnswer.EMBED_MODEL with "text-embedding-3-small".
  destruct (embeddings_create E "text-embedding-3-small" [query])
    as [[| v more] | e].
  - cbn. split; [reflexivity |]. split; [intros m H; discriminate H |].
    split; [reflexivity | intros v more H; discriminate H].
  - rewrite getitem_0_cons. cbn.
    split; [reflexivity |]. split; [intros m H; discriminate H |].
    split; [intros H; discriminate H |].
    intros v' more' H. now injection H as <- _.
  - cbn. split; [reflexivity |]. split.
    + intros m H. unfold embedding_failure in H.
      destruct e as [m' | m' | m']; cbn in H; try discriminate H.
      injection H as <-. now exists m'.
    + split; [intros H; discriminate H | intros v more H; discriminate H].
Qed.

(** X2.  [generate_answer] returns a text exactly when the completion
    model replied with at least one choice, and the text is the first
    choice, unchanged.  An [OpenAIError] that leaves it is the
    provider's, under the prefix "Failed to generate answer: ".  It
    touches no file. *)
Theorem generate_answer_outcomes (user_question : string)
    (retrieved_chunks : list string) (s : Sys Vec Index) :
  let messages :=
    RagAnswer.messages_of (join (nl ++ nl) retrieved_chunks) user_question in
  disk (snd (RagAnswer.generate_answer E user_question retrieved_chunks s))
    = disk s /\
  (forall text,
     fst (RagAnswer.generate_answer E user_question retrieved_chunks s)
       = Return text <->
     exists more,
       chat_completions_create E "gpt-4o-mini" messages = Return (text :: more)) /\
  (forall m,
     fst (RagAnswer.generate_answer E user_question retrieved_chunks s)
       = Raise (OpenAIError m) ->
     exists m',
       chat_completions_create E "gpt-4o-mini" messages = Raise (OpenAIError m') /\
       m = "Failed to generate answer: " ++ m').
Proof.
  intros messages. rewrite generate_answer_run. cbn zeta. fold messages.
  change RagAnswer.CHAT_MODEL with "gpt-4o-mini".
  destruct (chat_completions_create E "gpt-4o-mini" messages)
    as [[| text more] | e].
  - split; [reflexivity |]. split.
    + intros text. split; [discriminate | intros [more H]; discriminate].
    + intros m H. discriminate.
  - rewrite getitem_0_cons. split; [reflexivity |]. split.
    + intros text'. split.
      * intros H. injection H as <-. now exists more.
      * intros [more' H]. now injection H as <- _.
    + intros m H. discriminate.
  - split; [reflexivity |]. split.
    + intros text. split; [discriminate | intros [more H]; discriminate].
    + intros m H. unfold answer_failure in H.
      destruct e as [m' | m' | m']; cbn in H; try discriminate.
      injection H as <-. now exists m'.
Qed.

Lemma collect_Raise (chunks : list string) (ids : list Z) :
  forall results e,
    RagAnswer.collect chunks ids results = Raise e ->
    e = IndexError "list index out of range" /\
    Exists (fun i => i <> -1 /\ ~ in_bounds (Z.of_nat (length chunks)) i) ids.
Proof.
  induction ids as [| i rest IH]; intros results e Hrun; cbn in Hrun.
  - discriminate.
  - destruct (Z.eqb_spec i (-1)) as [-> | Hne]; cbn in Hrun.
    + destruct (IH _ _ Hrun) as [He Hex]. split; [exact He | now right].
    + destruct (getitem chunks i) as [c | e'] eqn:Hget.
      * destruct (IH _ _ Hrun) as [He Hex]. split; [exact He | now right].
      * injection Hrun as <-.
        destruct (@getitem_Raise _ chunks i e' Hget) as [He Hout].
        split; [exact He | left; now split].
Qed.

Lemma collect_Return_wrapped (chunks : list string) (ids : list Z) :
  forall results hits,
    RagAnswer.collect chunks ids results = Return hits ->
    Forall (fun i => i = -1 \/ in_bounds (Z.of_nat (length chunks)) i) ids /\
    exists found,
      hits = (results ++ found)%list /\
      Forall2 (fun i c =>
                 nth_error chunks
                   (Z.to_nat (wrapped (Z.of_nat (length chunks)) i)) = Some c)
              (matches ids) found.
Proof.
  induction ids as [| i rest IH]; intros results hits Hrun; cbn in Hrun.
  - injection Hrun as <-. split; [constructor |].
    exists []. split; [now rewrite app_nil_r | constructor].
  - unfold matches. cbn [filter]. fold (matches rest).
    destruct (Z.eqb_spec i (-1)) as [-> | Hne]; cbn in Hrun |- *.
    + destruct (IH _ _ Hrun) as (Hall & found & -> & Hfound).
      split; [constructor; [now left | exact Hall] |]. now exists found.
    + destruct (getitem chunks i) as [c | e'] eqn:Hget; [| discriminate].
      destruct (@getitem_Return _ chunks i c Hget) as [Hin Hnth].
      destruct (IH _ _ Hrun) as (Hall & found & -> & Hfound).
      split; [constructor; [now right | exact Hall] |].
      exists (c :: found). split; [now rewrite <- app_assoc |].
      now constructor.
Qed.

(** X3.  Once the query is embedded and the search has answered,
    [retrieve] returns exactly when every position other than [-1] is a
    subscript the chunk store accepts, [-len <= p < len].  It then
    returns, in the order of the search result, the chunk at [p], or at
    [len + p] for a negative [p]: a negative position other than [-1]
    is not skipped but counts from the end.  In every other case it
    raises [IndexError]. *)
Theorem retrieve_returns_iff_positions_in_bounds (query : string)
    (index : Index) (chunks : list string) (k : Z) (s : Sys Vec Index)
    (v : Vec) (more : list Vec) (ids : list Z) :
  embeddings_create E RagAnswer.EMBED_MODEL [query] = Return (v :: more) ->
  index_search E index (normalize_L2 E v) k = Return ids ->
  let len := Z.of_nat (length chunks) in
  ((exists hits, fst (RagAnswer.retrieve E query index chunks k s) = Return hits)
   <-> Forall (fun i => i = -1 \/ in_bounds len i) ids) /\
  (forall hits,
     fst (RagAnswer.retrieve E query index chunks k s) = Return hits ->
     Forall2 (fun i c => nth_error chunks (Z.to_nat (wrapped len i)) = Some c)
             (matches ids) hits) /\
  (forall e,
     fst (RagAnswer.retrieve E query index chunks k s) = Raise e ->
     e = IndexError "list index out of range").
Proof.
  intros Hembed Hsearch len.
  rewrite retrieve_run, embed_query_run, Hembed, getitem_0_cons.
  cbn zeta. cbn iota. rewrite Hsearch. cbn [fst].
  split; [split |].
  - intros [hits Hrun].
    now destruct (@collect_Return_wrapped chunks ids [] hits Hrun).
  - intros Hall.
    destruct (RagAnswer.collect chunks ids []) as [hits | e] eqn:Hrun;
      [now exists hits |].
    destruct (@collect_Raise chunks ids [] e Hrun) as [_ Hex].
    apply Exists_exists in Hex. destruct Hex as (i & Hi & Hne & Hout).
    rewrite Forall_forall in Hall. destruct (Hall i Hi); contradiction.
  - split.
    + intros hits Hrun.
      destruct (@collect_Return_wrapped chunks ids [] hits Hrun)
        as (_ & found & -> & Hfound). exact Hfound.
    + intros e Hrun. now destruct (@collect_Raise chunks ids [] e Hrun).
Qed.

(** X4.  [retrieve] touches no file and never calls the completion
    model: it makes the embedding call and then at most one search
    call, and no search call at all when the query could not be
    embedded. *)
Theorem retrieve_effects (query : string) (index : Index)
    (chunks : list string) (k : Z) (s : Sys Vec Index) :
  let s' := snd (RagAnswer.retrieve E query index chunks k s) in
  let embed := EmbeddingsCreate RagAnswer.EMBED_MODEL [query] in
  disk s' = disk s /\
  (calls s' = (calls s ++ [embed])%list \/
   exists qvec, calls s' = (calls s ++ [embed; IndexSearch index qvec k])%list) /\
  (forall e, fst (RagAnswer.embed_query E query s) = Raise e ->
             calls s' = (calls s ++ [embed])%list /\
             fst (RagAnswer.retrieve E query index chunks k s) = Raise e).
Proof.
  cbn zeta. rewrite retrieve_run, embed_query_run. cbn zeta.
  destruct (embeddings_create E RagAnswer.EMBED_MODEL [query]) as [resp | e].
  - destruct (getitem resp 0) as [qvec | e].
    + cbn iota.
      assert (Hcalls :
        calls (snd (match index_search E index (normalize_L2 E qvec) k with
                    | Return ids =>
                        (RagAnswer.collect chunks ids [],
                         logged (logged s (EmbeddingsCreate RagAnswer.EMBED_MODEL [query]))
                                (IndexSearch index (normalize_L2 E qvec) k))
                    | Raise e =>
                        (Raise e,
                         logged (logged s (EmbeddingsCreate RagAnswer.EMBED_MODEL [query]))
                                (IndexSearch index (normalize_L2 E qvec) k))
                    end))
        = (calls s ++ [EmbeddingsCreate RagAnswer.EMBED_MODEL [query];
                       IndexSearch index (normalize_L2 E qvec) k])%list).
      { destruct (index_search E index (normalize_L2 E qvec) k); cbn;
          now rewrite <- app_assoc. }
      split; [destruct (index_search E index (normalize_L2 E qvec) k); reflexivity |].
      split; [right; now exists (normalize_L2 E qvec) |].
      intros e H. discriminate.
    + cbn. split; [reflexivity |]. split; [now left |].
      intros e' H. injection H as <-. now split.
  - cbn. split; [reflexivity |]. split; [now left |].
    intros e' H. injection H as <-. now split.
Qed.

End RagAnswerOutcomes.

(** ** [main.py]: the endpoints *)

Section MainOutcomes.

Context {Vec Index : Type} (E : Env Vec Index).

Lemma getitem_0_Return {A : Type} (l : list A) (x : A) :
  getitem l 0 = Return x -> exists more, l = x :: more.
Proof.
  destruct l as [| y more]; [intros H; discriminate H |].
  rewrite getitem_0_cons. intros H. injection H as <-. now exists more.
Qed.

Lemma retrieve_keeps_disk (query : string) (index : Index)
    (chunks : list string) (k : Z) (s : Sys Vec Index) :
  disk (snd (RagAnswer.retrieve E query index chunks k s)) = disk s.
Proof.
  rewrite retrieve_run, embed_query_run. cbn zeta.
  destruct (embeddings_create E RagAnswer.EMBED_MODEL [query]) as [resp | e];
    [| reflexivity].
  destruct (getitem resp 0) as [qvec | e]; [| reflexivity]. cbn iota.
  destruct (index_search E index (normalize_L2 E qvec) k); reflexivity.
Qed.

Lemma generate_answer_keeps_disk (user_question : string)
    (retrieved_chunks : list string) (s : Sys Vec Index) :
  disk (snd (RagAnswer.generate_answer E user_question retrieved_chunks s))
    = disk s.
Proof.
  rewrite generate_answer_run. cbn zeta.
  destruct (chat_completions_create E _ _) as [response | e]; [| reflexivity].
  destruct (getitem response 0); reflexivity.
Qed.

(** What [chat] leaves behind once it answers from the knowledge base
    [i], [c]: the globals as they are, the files as they are. *)
Lemma chat_answer_frame (payload : Main.ChatIn) (i : Index) (c : list string)
    (w : Main.World Vec Index) :
  let w' := snd (Main.handle "Error processing request: "
                   (Main.chat_answer E payload i c) w) in
  Main.index w' = Main.index w /\ Main.chunks w' = Main.chunks w /\
  disk (Main.sys w') = disk (Main.sys w).
Proof.
  cbn zeta. unfold Main.handle. rewrite chat_answer_run.
  pose proof (retrieve_keeps_disk (Main.message payload) i c 4 (Main.sys w)) as Hr.
  destruct (RagAnswer.retrieve E _ i c 4 (Main.sys w)) as [[hits | e] s1];
    cbn [snd] in Hr.
  - pose proof (generate_answer_keeps_disk (Main.message payload) hits s1) as Hg.
    destruct (RagAnswer.generate_answer E _ hits s1) as [[text | e] s2];
      cbn [snd] in Hg.
    + cbn. now rewrite Hg, Hr.
    + destruct (is_OpenAIError e); cbn; now rewrite Hg, Hr.
  - destruct (is_OpenAIError e); cbn; now rewrite Hr.
Qed.

(** X5.  With both globals set, [chat] only reads the knowledge base:
    whatever it answers and however it fails, the globals [index] and
    [chunks] and the files are afterwards as they were. *)
Theorem chat_reads_only_when_loaded (payload : Main.ChatIn)
    (w : Main.World Vec Index) (i : Index) (c : list string) :
  Main.index w = Some i ->
  Main.chunks w = Some c ->
  Main.index (snd (Main.chat E payload w)) = Some i /\
  Main.chunks (snd (Main.chat E payload w)) = Some c /\
  disk (Main.sys (snd (Main.chat E payload w))) = disk (Main.sys w).
Proof.
  intros Hi Hc. rewrite (@chat_ready _ _ E payload w i c Hi Hc).
  destruct (chat_answer_frame payload i c w) as (Hi' & Hc' & Hd).
  now rewrite Hi', Hc', Hd, Hi, Hc.
Qed.

(** X6.  An answer that [chat] returns from the knowledge base in memory
    took three calls, in this order: the embedding of the message, one
    search of the index for 4 neighbours with the normalized embedding,
    and one completion call whose prompt holds the retrieved chunks; the
    answer is the first choice of that reply. *)
Theorem chat_answer_takes_three_calls (payload : Main.ChatIn)
    (w w' : Main.World Vec Index) (i : Index) (c : list string)
    (r : Main.ChatOut) :
  Main.index w = Some i ->
  Main.chunks w = Some c ->
  Main.chat E payload w = (Main.Json r, w') ->
  exists v more hits texts,
    embeddings_create E "text-embedding-3-small" [Main.message payload]
      = Return (v :: more) /\
    fst (RagAnswer.retrieve E (Main.message payload) i c 4 (Main.sys w))
      = Return hits /\
    chat_completions_create E "gpt-4o-mini"
      (RagAnswer.messages_of (join (nl ++ nl) hits) (Main.message payload))
      = Return (Main.answer r :: texts) /\
    calls (Main.sys w') =
      (calls (Main.sys w) ++
       [EmbeddingsCreate "text-embedding-3-small" [Main.message payload];
        IndexSearch i (normalize_L2 E v) 4;
        ChatCompletionsCreate "gpt-4o-mini"
          (RagAnswer.messages_of (join (nl ++ nl) hits) (Main.message payload))])%list.
Proof.
  intros Hi Hc. rewrite (@chat_ready _ _ E payload w i c Hi Hc).
  unfold Main.handle. rewrite chat_answer_run, retrieve_run, embed_query_run.
  cbn zeta.
  change RagAnswer.EMBED_MODEL with "text-embedding-3-small".
  destruct (embeddings_create E "text-embedding-3-small" [Main.message payload])
    as [resp | e].
  2: { destruct (is_OpenAIError (embedding_failure e)); intros H; discriminate H. }
  destruct (getitem resp 0) as [v | e] eqn:Hget.
  2: { destruct (is_OpenAIError e); intros H; discriminate H. }
  destruct (@getitem_0_Return _ resp v Hget) as [more ->]. cbn iota.
  destruct (index_search E i (normalize_L2 E v) 4) as [ids | e].
  2: { destruct (is_OpenAIError e); intros H; discriminate H. }
  destruct (RagAnswer.collect c ids []) as [hits | e].
  2: { destruct (is_OpenAIError e); intros H; discriminate H. }
  rewrite generate_answer_run. cbn zeta.
  change RagAnswer.CHAT_MODEL with "gpt-4o-mini".
  destruct (chat_completions_create E "gpt-4o-mini" _) as [response | e] eqn:Hreply.
  2: { destruct (is_OpenAIError (answer_failure e)); intros H; discriminate H. }
  destruct (getitem response 0) as [text | e] eqn:Hget'.
  2: { destruct (is_OpenAIError e); intros H; discriminate H. }
  destruct (@getitem_0_Return _ response text Hget') as [texts ->].
  intros H. injection H as <- <-.
  exists v, more, hits, texts. cbn.
  repeat split; try reflexivity; [exact Hreply | now rewrite <- !app_assoc].
Qed.

(** X7.  When [chat] has loaded the knowledge base from the files, the
    globals hold it afterwards whether or not the answer could then be
    composed, so that the next [chat] does not look at the files again
    but answers from memory. *)
Theorem chat_keeps_loaded_knowledge_base (payload : Main.ChatIn)
    (w : Main.World Vec Index) (loaded : Index * list string)
    (s1 : Sys Vec Index) :
  Main.index w = None \/ Main.chunks w = None ->
  os_path_exists (disk (Main.sys w)) INDEX_PATH = true ->
  os_path_exists (disk (Main.sys w)) META_PATH = true ->
  load_index E INDEX_PATH META_PATH (Main.sys w) = (Return loaded, s1) ->
  Main.index (snd (Main.chat E payload w)) = Some (fst loaded) /\
  Main.chunks (snd (Main.chat E payload w)) = Some (snd loaded) /\
  forall next,
    Main.chat E next (snd (Main.chat E payload w)) =
      Main.handle "Error processing request: "
        (Main.chat_answer E next (fst loaded) (snd loaded))
        (snd (Main.chat E payload w)).
Proof.
  intros Hunset Hei Hem Hload.
  assert (Hglobals :
    Main.index (snd (Main.chat E payload w)) = Some (fst loaded) /\
    Main.chunks (snd (Main.chat E payload w)) = Some (snd loaded)).
  { assert (Hchat : Main.chat E payload w =
              Main.handle "Error processing request: "
                (Main.chat_answer E payload (fst loaded) (snd loaded))
                {| Main.index := Some (fst loaded);
                   Main.chunks := Some (snd loaded);
                   Main.sys := s1 |}).
    { unfold Main.chat, Main.handle.
      now rewrite (@chat_unset _ _ E payload w Hunset), Hei, Hem, Hload. }
    rewrite Hchat.
    destruct (chat_answer_frame payload (fst loaded) (snd loaded)
                {| Main.index := Some (fst loaded);
                   Main.chunks := Some (snd loaded);
                   Main.sys := s1 |}) as (Hi' & Hc' & _).
    now split. }
  destruct Hglobals as [Hi Hc]. repeat split; try assumption.
  intros next. now apply chat_ready.
Qed.

Lemma prefix_append (p rest : string) : prefix p (p ++ rest) = true.
Proof.
  induction p as [| a p IH]; cbn; [now destruct rest |].
  destruct (ascii_dec a a) as [_ | Hne]; [exact IH | now destruct Hne].
Qed.

Lemma handle_failure {A : Type} (what : string)
    (m : M (Main.World Vec Index) A) (w : Main.World Vec Index)
    (status_code : Z) (detail : string) :
  fst (Main.handle what m w) = Main.HTTPException status_code detail ->
  status_code = 500 /\
  (prefix "OpenAI API error: " detail = true \/ prefix what detail = true).
Proof.
  unfold Main.handle.
  destruct (m w) as [[body | e] w']; [intros H; discriminate H |].
  destruct (is_OpenAIError e); intros H; injection H as <- <-;
    (split; [reflexivity |]);
    [ left; exact (prefix_append "OpenAI API error: " (str e))
    | right; exact (prefix_append what (str e)) ].
Qed.

(** X8.  Every failure [ingest] or [chat] reports carries the status
    500, and its detail begins with "OpenAI API error: " or with the
    endpoint's own prefix, "Error during ingestion: " or
    "Error processing request: ". *)
Theorem endpoint_failures_are_500 (w : Main.World Vec Index)
    (status_code : Z) (detail : string) :
  (fst (Main.ingest E w) = Main.HTTPException status_code detail ->
   status_code = 500 /\
   (prefix "OpenAI API error: " detail = true \/
    prefix "Error during ingestion: " detail = true)) /\
  (forall payload,
     fst (Main.chat E payload w) = Main.HTTPException status_code detail ->
     status_code = 500 /\
     (prefix "OpenAI API error: " detail = true \/
      prefix "Error processing request: " detail = true)).
Proof.
  split; [| intros payload]; apply handle_failure.
Qed.

Lemma ingest_Json (w w' : Main.World Vec Index) (r : Main.IngestOut) :
  Main.ingest E w = (Main.Json r, w') ->
  exists s3 i c,
    load_index E INDEX_PATH META_PATH s3 = (Return (i, c), Main.sys w') /\
    w' = {| Main.index := Some i; Main.chunks := Some c; Main.sys := Main.sys w' |} /\
    r = {| Main.status := "ok"; Main.chunks_count := length c |}.
Proof.
  unfold Main.ingest, Main.handle. rewrite ingest_try_run.
  destruct (pdf_to_text E PDF_PATH (Main.sys w)) as [[text | e] s1].
  2: { destruct (is_OpenAIError e); intros H; discriminate H. }
  destruct (chunk_text E text s1) as [[cs | e] s2].
  2: { destruct (is_OpenAIError e); intros H; discriminate H. }
  destruct (build_and_save_index E cs INDEX_PATH META_PATH s2) as [[u | e] s3].
  2: { destruct (is_OpenAIError e); intros H; discriminate H. }
  destruct (load_index E INDEX_PATH META_PATH s3) as [[[i c] | e] s4] eqn:Hload.
  2: { destruct (is_OpenAIError e); intros H; discriminate H. }
  intros H. injection H as <- <-. exists s3, i, c. now repeat split.
Qed.

(** X9.  When [ingest] succeeds its status is "ok", both globals are
    set, and they hold what [load_index] read back from the files, not
    the chunk list the chunker produced; the chunk count it reports is
    the length of that loaded chunk store. *)
Theorem ingest_success_reports_loaded_store (w w' : Main.World Vec Index)
    (r : Main.IngestOut) :
  Main.ingest E w = (Main.Json r, w') ->
  Main.status r = "ok" /\
  exists s3 i c,
    load_index E INDEX_PATH META_PATH s3 = (Return (i, c), Main.sys w') /\
    Main.index w' = Some i /\
    Main.chunks w' = Some c /\
    Main.chunks_count r = length c.
Proof.
  intros Hrun.
  destruct (@ingest_Json w w' r Hrun) as (s3 & i & c & Hload & Hw & ->).
  split; [reflexivity |].
  exists s3, i, c. rewrite Hw. cbn. now repeat split.
Qed.

(** X10.  After a successful [ingest], an answer of [chat] is the
    completion model's reply, never the "not yet ingested" notice of
    [chat] itself, and [chat] leaves the ingested knowledge base in
    memory as it is. *)
Theorem chat_after_ingest_answers_from_model (w w' w'' : Main.World Vec Index)
    (r : Main.IngestOut) (payload : Main.ChatIn) (r' : Main.ChatOut) :
  Main.ingest E w = (Main.Json r, w') ->
  Main.chat E payload w' = (Main.Json r', w'') ->
  answered_by_model E payload r' w'' /\
  Main.index w'' = Main.index w' /\
  Main.chunks w'' = Main.chunks w'.
Proof.
  intros Hingest Hchat.
  destruct (@ingest_Json w w' r Hingest) as (s3 & i & c & _ & Hw & _).
  assert (Hi : Main.index w' = Some i) by now rewrite Hw.
  assert (Hc : Main.chunks w' = Some c) by now rewrite Hw.
  rewrite (@chat_ready _ _ E payload w' i c Hi Hc) in Hchat.
  split; [exact (@chat_answer_Json _ _ E payload i c w' w'' r' Hchat) |].
  destruct (chat_answer_frame payload i c w') as (Hi' & Hc' & _).
  rewrite Hchat in Hi', Hc'. now split.
Qed.


(** X13.  [ingest] rebuilds from the document alone: two worlds that
    differ only in the globals get the same response from it and the
    same state outside the process, and the same world when it
    succeeds. *)
Theorem ingest_ignores_previous_memory (w1 w2 : Main.World Vec Index) :
  Main.sys w1 = Main.sys w2 ->
  fst (Main.ingest E w1) = fst (Main.ingest E w2) /\
  Main.sys (snd (Main.ingest E w1)) = Main.sys (snd (Main.ingest E w2)) /\
  (forall r w', Main.ingest E w1 = (Main.Json r, w') ->
                Main.ingest E w2 = (Main.Json r, w')).
Proof.
  intros Hsys. unfold Main.ingest, Main.handle.
  rewrite !ingest_try_run, Hsys.
  destruct (pdf_to_text E PDF_PATH (Main.sys w2)) as [[text | e] s1].
  2: { destruct (is_OpenAIError e); repeat split; intros r w' H; discriminate H. }
  destruct (chunk_text E text s1) as [[cs | e] s2].
  2: { destruct (is_OpenAIError e); repeat split; intros r w' H; discriminate H. }
  destruct (build_and_save_index E cs INDEX_PATH META_PATH s2) as [[u | e] s3].
  2: { destruct (is_OpenAIError e); repeat split; intros r w' H; discriminate H. }
  destruct (load_index E INDEX_PATH META_PATH s3) as [[loaded | e] s4].
  2: { destruct (is_OpenAIError e); repeat split; intros r w' H; discriminate H. }
  repeat split. intros r w' H. exact H.
Qed.

End MainOutcomes.

(** ** [main.py]: configuration *)

Section Configuration.

Lemma str_split_cons (c : ascii) (s : string) :
  exists piece pieces, MainSetup.str_split c s = piece :: pieces.
Proof.
  destruct s as [| a rest]; cbn; [now eexists _, _ |].
  destruct (Ascii.eqb a c); [now eexists _, _ |].
  destruct (MainSetup.str_split c rest); now eexists _, _.
Qed.

Lemma str_split_join (c : ascii) (s : string) :
  String.concat (String c EmptyString) (MainSetup.str_split c s) = s.
Proof.
  induction s as [| a rest IH]; [reflexivity |].
  cbn [MainSetup.str_split].
  destruct (str_split_cons c rest) as (piece & pieces & Hsplit).
  rewrite Hsplit in IH |- *.
  destruct (Ascii.eqb_spec a c) as [-> | Hne].
  - cbn [String.concat]. cbn. now rewrite <- IH.
  - destruct pieces as [| piece' pieces].
    + cbn in IH |- *. now rewrite IH.
    + change (String a piece ++ String c EmptyString
                ++ String.concat (String c EmptyString) (piece' :: pieces)
              = String a rest).
      cbn. f_equal. exact IH.
Qed.

Lemma str_split_count (c : ascii) (s : string) :
  length (MainSetup.str_split c s) = S (count_char c s) /\
  Forall (fun piece => count_char c piece = 0%nat) (MainSetup.str_split c s).
Proof.
  induction s as [| a rest [IHlen IHall]]; cbn [MainSetup.str_split count_char].
  - split; [reflexivity | now repeat constructor].
  - destruct (str_split_cons c rest) as (piece & pieces & Hsplit).
    rewrite Hsplit in IHlen, IHall |- *.
    destruct (Ascii.eqb a c) eqn:Hac.
    + split; [cbn; now rewrite <- IHlen | now constructor].
    + split; [exact IHlen |].
      inversion IHall as [| ? ? Hpiece Hpieces]; subst.
      constructor; [cbn; now rewrite Hac | exact Hpieces].
Qed.

(** X14.  [ALLOWED_ORIGINS] loses nothing of the configured value:
    joined with commas, the origins give back the value of the
    environment variable, or the default when it is unset.  Nothing is
    stripped from an origin. *)
Theorem allowed_origins_join_back (environ : string -> option string) :
  join "," (MainSetup.ALLOWED_ORIGINS environ) =
    MainSetup.os_getenv environ "ALLOWED_ORIGINS"
      "http://localhost:5173,http://127.0.0.1:5173".
Proof.
  unfold MainSetup.ALLOWED_ORIGINS, join.
  exact (str_split_join MainSetup.comma _).
Qed.

(** X15.  [ALLOWED_ORIGINS] has one origin more than the configured
    value has commas, so it is never empty (an empty value gives the one
    origin [""]), and no origin contains a comma. *)
Theorem allowed_origins_shape (environ : string -> option string) :
  length (MainSetup.ALLOWED_ORIGINS environ) =
    S (count_char MainSetup.comma
         (MainSetup.os_getenv environ "ALLOWED_ORIGINS"
            "http://localhost:5173,http://127.0.0.1:5173")) /\
  Forall (fun origin => count_char MainSetup.comma origin = 0%nat)
         (MainSetup.ALLOWED_ORIGINS environ) /\
  (environ "ALLOWED_ORIGINS" = Some "" ->
   MainSetup.ALLOWED_ORIGINS environ = [""]).
Proof.
  unfold MainSetup.ALLOWED_ORIGINS.
  destruct (str_split_count MainSetup.comma
              (MainSetup.os_getenv environ "ALLOWED_ORIGINS"
                 "http://localhost:5173,http://127.0.0.1:5173")) as [Hlen Hall].
  repeat split; [exact Hlen | exact Hall |].
  intros Hset. unfold MainSetup.os_getenv. now rewrite Hset.
Qed.

Lemma ends_with_sep_cons (c : ascii) (rest : string) :
  rest <> EmptyString ->
  MainSetup.ends_with_sep (String c rest) = MainSetup.ends_with_sep rest.
Proof. destruct rest; [intros H; now destruct H | reflexivity]. Qed.

Lemma ends_with_data (x : string) :
  MainSetup.ends_with_sep (x ++ "data") = false /\ x ++ "data" <> EmptyString.
Proof.
  induction x as [| c x [IH Hne]].
  - split; [reflexivity | discriminate].
  - cbn [append]. split; [| discriminate].
    now rewrite ends_with_sep_cons.
Qed.

Lemma string_append_assoc (a b c : string) : (a ++ b) ++ c = a ++ b ++ c.
Proof. induction a as [| x a IH]; cbn; [reflexivity | now rewrite IH]. Qed.

Lemma data_dir_form (here : string) :
  exists x, MainSetup.DATA_DIR here = x ++ "data".
Proof.
  unfold MainSetup.DATA_DIR, MainSetup.os_path_join.
  cbn [MainSetup.starts_with_sep].
  change (Ascii.eqb "d" MainSetup.sep) with false. cbn iota.
  destruct here as [| c here]; [now exists "" |].
  destruct (MainSetup.ends_with_sep (String c here)).
  - now exists (String c here).
  - exists (String c here ++ String MainSetup.sep EmptyString).
    now rewrite string_append_assoc.
Qed.

Lemma append_cancel_l (p a b : string) : p ++ a = p ++ b -> a = b.
Proof.
  induction p as [| c p IH]; cbn; [trivial |].
  intros H. injection H as H. now apply IH.
Qed.

(** X16.  Wherever the module is installed, each of the three file
    paths is the data directory, a "/", and the file's name, and the
    three paths are pairwise different: the document, the index file
    and the chunk file never share a path. *)
Theorem data_paths_are_distinct (here : string) :
  (forall p, MainSetup.path_string here p =
             MainSetup.DATA_DIR here ++ "/" ++ MainSetup.file_name p) /\
  (forall p q, MainSetup.path_string here p = MainSetup.path_string here q ->
               p = q).
Proof.
  assert (Hform : forall p, MainSetup.path_string here p =
             MainSetup.DATA_DIR here ++ "/" ++ MainSetup.file_name p).
  { intros p. unfold MainSetup.path_string.
    destruct (data_dir_form here) as [x ->].
    destruct (ends_with_data x) as [Hend Hne].
    unfold MainSetup.os_path_join at 1.
    replace (MainSetup.starts_with_sep (MainSetup.file_name p)) with false
      by now destruct p.
    rewrite Hend.
    destruct (x ++ "data") eqn:Hx; [now destruct Hne | reflexivity]. }
  split; [exact Hform |].
  intros p q. rewrite !Hform. intros H.
  apply append_cancel_l in H. apply (append_cancel_l "/") in H.
  destruct p, q; try reflexivity; discriminate H.
Qed.

End Configuration.

(** ** The further properties at work in the concrete environment *)

Lemma retrieve_returns_iff_positions_in_bounds_witness :
  exists hits,
    fst (RagAnswer.retrieve (Demo.env true) "claims process"
           [Demo.Unit (Demo.Raw "a"); Demo.Unit (Demo.Raw "b")] ["a"; "b"] 4
           Demo.empty_sys) = Return hits.
Proof.
  apply (proj2 (proj1
    (@retrieve_returns_iff_positions_in_bounds _ _ (Demo.env true)
       "claims process"
       [Demo.Unit (Demo.Raw "a"); Demo.Unit (Demo.Raw "b")] ["a"; "b"] 4
       Demo.empty_sys (Demo.Raw "claims process") [] [0; 1; -1; -1]
       eq_refl eq_refl))).
  constructor; [right; unfold in_bounds; cbn; lia |].
  constructor; [right; unfold in_bounds; cbn; lia |].
  constructor; [left; reflexivity |].
  constructor; [left; reflexivity |].
  constructor.
Defined.

Lemma chat_reads_only_when_loaded_witness :
  Main.index (snd (Main.chat (Demo.env true)
                     {| Main.message := "How do I file a claim?" |}
                     Demo.ready_world))
    = Some [Demo.Unit (Demo.Raw "old policy text")] /\
  Main.chunks (snd (Main.chat (Demo.env true)
                      {| Main.message := "How do I file a claim?" |}
                      Demo.ready_world))
    = Some ["old policy text"] /\
  disk (Main.sys (snd (Main.chat (Demo.env true)
                         {| Main.message := "How do I file a claim?" |}
                         Demo.ready_world)))
    = Demo.ready_disk.
Proof.
  exact (@chat_reads_only_when_loaded _ _ (Demo.env true)
           {| Main.message := "How do I file a claim?" |} Demo.ready_world
           [Demo.Unit (Demo.Raw "old policy text")] ["old policy text"]
           eq_refl eq_refl).
Defined.

Lemma chat_answer_takes_three_calls_witness :
  exists v more hits texts,
    Demo.embeddings true "text-embedding-3-small" ["How do I file a claim?"]
      = Return (v :: more) /\
    fst (RagAnswer.retrieve (Demo.env true) "How do I file a claim?"
           [Demo.Unit (Demo.Raw "old policy text")] ["old policy text"] 4
           (Main.sys Demo.ready_world)) = Return hits /\
    Demo.completions true "gpt-4o-mini"
      (RagAnswer.messages_of (join (nl ++ nl) hits) "How do I file a claim?")
      = Return ("I don't have that; let me get you human support." :: texts) /\
    calls (Main.sys (snd (Main.chat (Demo.env true)
                            {| Main.message := "How do I file a claim?" |}
                            Demo.ready_world))) =
      ([] ++
       [EmbeddingsCreate "text-embedding-3-small" ["How do I file a claim?"];
        IndexSearch [Demo.Unit (Demo.Raw "old policy text")] (Demo.Unit v) 4;
        ChatCompletionsCreate "gpt-4o-mini"
          (RagAnswer.messages_of (join (nl ++ nl) hits)
             "How do I file a claim?")])%list.
Proof.
  exact (@chat_answer_takes_three_calls _ _ (Demo.env true)
           {| Main.message := "How do I file a claim?" |} Demo.ready_world
           (snd (Main.chat (Demo.env true)
                   {| Main.message := "How do I file a claim?" |}
                   Demo.ready_world))
           [Demo.Unit (Demo.Raw "old policy text")] ["old policy text"]
           {| Main.answer := "I don't have that; let me get you human support." |}
           eq_refl eq_refl eq_refl).
Defined.

Lemma chat_keeps_loaded_knowledge_base_witness :
  Main.index (snd (Main.chat (Demo.env false)
                     {| Main.message := "How do I file a claim?" |}
                     Demo.restarted_world))
    = Some [Demo.Unit (Demo.Raw "old policy text")].
Proof.
  exact (proj1 (@chat_keeps_loaded_knowledge_base _ _ (Demo.env false)
                  {| Main.message := "How do I file a claim?" |}
                  Demo.restarted_world
                  ([Demo.Unit (Demo.Raw "old policy text")], ["old policy text"])
                  {| disk := Demo.ready_disk; calls := [] |}
                  (or_introl eq_refl) eq_refl eq_refl eq_refl)).
Defined.

Lemma ingest_success_reports_loaded_store_witness :
  exists s3 i c,
    load_index (Demo.env true) INDEX_PATH META_PATH s3
      = (Return (i, c),
         Main.sys (snd (Main.ingest (Demo.env true) Demo.ready_world))) /\
    Main.index (snd (Main.ingest (Demo.env true) Demo.ready_world)) = Some i /\
    Main.chunks (snd (Main.ingest (Demo.env true) Demo.ready_world)) = Some c /\
    1%nat = length c.
Proof.
  exact (proj2 (@ingest_success_reports_loaded_store _ _ (Demo.env true)
                  Demo.ready_world
                  (snd (Main.ingest (Demo.env true) Demo.ready_world))
                  {| Main.status := "ok"; Main.chunks_count := 1 |}
                  eq_refl)).
Defined.

Lemma chat_after_ingest_answers_from_model_witness :
  Main.index
    (snd (Main.chat (Demo.env true)
            {| Main.message := "How do I file a claim?" |}
            (snd (Main.ingest (Demo.env true) Demo.ready_world))))
  = Main.index (snd (Main.ingest (Demo.env true) Demo.ready_world)).
Proof.
  exact (proj1 (proj2
    (@chat_after_ingest_answers_from_model _ _ (Demo.env true)
       Demo.ready_world
       (snd (Main.ingest (Demo.env true) Demo.ready_world))
       (snd (Main.chat (Demo.env true)
               {| Main.message := "How do I file a claim?" |}
               (snd (Main.ingest (Demo.env true) Demo.ready_world))))
       {| Main.status := "ok"; Main.chunks_count := 1 |}
       {| Main.message := "How do I file a claim?" |}
       {| Main.answer := "I don't have that; let me get you human support." |}
       eq_refl eq_refl))).
Defined.

Lemma ingest_failure_keeps_index_witness :
  Main.index (snd (Main.ingest (Demo.env false) Demo.ready_world))
    = Main.index Demo.ready_world.
Proof.
  exact (@ingest_failure_keeps_index _ _ (Demo.env false) Demo.ready_world 500
           "OpenAI API error: Failed to generate embeddings: Incorrect API key provided"
           eq_refl).
Defined.


Lemma ingest_ignores_previous_memory_witness :
  fst (Main.ingest (Demo.env true) Demo.ready_world)
    = fst (Main.ingest (Demo.env true) Demo.restarted_world).
Proof.
  exact (proj1 (@ingest_ignores_previous_memory _ _ (Demo.env true)
                  Demo.ready_world Demo.restarted_world eq_refl)).
Defined.

(** ** [main.py]: what a failure leaves for the next request *)

Section AfterFailure.

Context {Vec Index : Type} (E : Env Vec Index).

(** X17.  When [chat] finds both files but [load_index] raises, the
    globals stay as they were, so the next [chat] turns to the files
    again. *)
Theorem chat_load_failure_keeps_globals (payload : Main.ChatIn)
    (w : Main.World Vec Index) (e : exn) (s1 : Sys Vec Index) :
  Main.index w = None \/ Main.chunks w = None ->
  os_path_exists (disk (Main.sys w)) INDEX_PATH = true ->
  os_path_exists (disk (Main.sys w)) META_PATH = true ->
  load_index E INDEX_PATH META_PATH (Main.sys w) = (Raise e, s1) ->
  snd (Main.chat E payload w) = with_sys w s1 /\
  (Main.index (snd (Main.chat E payload w)) = None \/
   Main.chunks (snd (Main.chat E payload w)) = None).
Proof.
  intros Hunset Hei Hem Hload.
  assert (Hworld : snd (Main.chat E payload w) = with_sys w s1).
  { unfold Main.chat, Main.handle.
    rewrite (@chat_unset _ _ E payload w Hunset), Hei, Hem, Hload. cbn [andb].
    now destruct (is_OpenAIError e). }
  split; [exact Hworld |]. rewrite Hworld. exact Hunset.
Qed.

(** X18.  When [ingest] fails while the index is built and saved, with
    an index in memory, the next [chat] answers from the index of the
    old document paired with the chunks of the new one. *)
Theorem chat_after_failed_ingest_pairs_old_index_with_new_chunks
    (payload : Main.ChatIn) (w : Main.World Vec Index) (i : Index)
    (text : string) (s1 : Sys Vec Index) (cs : list string)
    (s2 : Sys Vec Index) (e : exn) (s3 : Sys Vec Index) :
  Main.index w = Some i ->
  pdf_to_text E PDF_PATH (Main.sys w) = (Return text, s1) ->
  chunk_text E text s1 = (Return cs, s2) ->
  build_and_save_index E cs INDEX_PATH META_PATH s2 = (Raise e, s3) ->
  Main.chat E payload (snd (Main.ingest E w)) =
    Main.handle "Error processing request: "
      (Main.chat_answer E payload i cs)
      {| Main.index := Some i; Main.chunks := Some cs; Main.sys := s3 |}.
Proof.
  intros Hi Hpdf Hchunk Hbuild.
  rewrite (@ingest_indexing_failure_state _ _ E w text s1 cs s2 e s3
             Hpdf Hchunk Hbuild), Hi.
  now apply chat_ready.
Qed.

End AfterFailure.

Lemma chat_load_failure_keeps_globals_witness :
  snd (Main.chat (Demo.env true)
         {| Main.message := "How do I file a claim?" |}
         {| Main.index := None;
            Main.chunks := None;
            Main.sys :=
              {| disk := {| knowledge_pdf := None;
                            index_faiss := Some (FaissIndex [Demo.Unit (Demo.Raw "a")]);
                            chunks_json := Some (ChunksJson []) |};
                 calls := [] |} |})
  = {| Main.index := None;
       Main.chunks := None;
       Main.sys :=
         {| disk := {| knowledge_pdf := None;
                       index_faiss := Some (FaissIndex [Demo.Unit (Demo.Raw "a")]);
                       chunks_json := Some (ChunksJson []) |};
            calls := [] |} |}.
Proof.
  exact (proj1 (@chat_load_failure_keeps_globals _ _ (Demo.env true)
                  {| Main.message := "How do I file a claim?" |}
                  {| Main.index := None;
                     Main.chunks := None;
                     Main.sys :=
                       {| disk := {| knowledge_pdf := None;
                                     index_faiss := Some (FaissIndex [Demo.Unit (Demo.Raw "a")]);
                                     chunks_json := Some (ChunksJson []) |};
                          calls := [] |} |}
                  (Exception "index and chunk store differ in length")
                  {| disk := {| knowledge_pdf := None;
                                index_faiss := Some (FaissIndex [Demo.Unit (Demo.Raw "a")]);
                                chunks_json := Some (ChunksJson []) |};
                     calls := [] |}
                  (or_introl eq_refl) eq_refl eq_refl eq_refl)).
Defined.

Lemma chat_after_failed_ingest_pairs_old_index_with_new_chunks_witness :
  Main.chat (Demo.env false) {| Main.message := "How do I file a claim?" |}
    (snd (Main.ingest (Demo.env false) Demo.ready_world)) =
  Main.handle "Error processing request: "
    (Main.chat_answer (Demo.env false)
       {| Main.message := "How do I file a claim?" |}
       [Demo.Unit (Demo.Raw "old policy text")] ["new policy text"])
    {| Main.index := Some [Demo.Unit (Demo.Raw "old policy text")];
       Main.chunks := Some ["new policy text"];
       Main.sys :=
         {| disk := Demo.ready_disk;
            calls := [EmbeddingsCreate "text-embedding-3-small"
                        ["new policy text"]] |} |}.
Proof.
  exact (@chat_after_failed_ingest_pairs_old_index_with_new_chunks _ _
           (Demo.env false) {| Main.message := "How do I file a claim?" |}
           Demo.ready_world [Demo.Unit (Demo.Raw "old policy text")]
           "new policy text" {| disk := Demo.ready_disk; calls := [] |}
           ["new policy text"] {| disk := Demo.ready_disk; calls := [] |}
           (OpenAIError "Failed to generate embeddings: Incorrect API key provided")
           {| disk := Demo.ready_disk;
              calls := [EmbeddingsCreate "text-embedding-3-small"
                          ["new policy text"]] |}
           eq_refl eq_refl eq_refl eq_refl).
Defined.
